(** * Execution dispatcher of the competitive-programming helper

    A shallow embedding of [src/apiClient.ts] (remote compile-and-run
    client), [src/executions.ts] (dispatcher, local process runner and
    in-flight registry) and [src/quickRun.ts] (the quick run of the open
    file), followed by the properties of the specification that concern
    them and by further properties of the code.

    Conventions of the embedding.
    - A JavaScript string is the list of its UTF-16 code units.
    - Functions of the Node.js runtime that the code calls but does not
      define ([path.join], [os.tmpdir], [os.platform], ...) are the fields of
      the class [Host]; every theorem holds for every host.
    - What a call finds around it (the preference, the clock, the answer of
      the server, the other tasks that touch the disk while the call is
      suspended) is a record [Env]; every theorem holds for every
      environment.
    - The file system is a finite map from paths to contents: reading or
      unlinking a missing file throws, and the environment says for each
      path whether the system refuses to write it or to unlink it.
    - The body of the [async] function [compileAndRunViaApi] is written in
      a state-and-exception monad; the local path of [runTestCase], which
      only reacts to events after [spawn], is a transition function whose
      events include the timer Node.js itself sets for the [timeout]
      option of [spawn] and a [spawn] that throws.
    - [globalThis.logger] and telemetry calls have no effect on any value
      the code computes and are left out.

    Layout: the embedding; a concrete host and concrete runs; the
    vocabulary of the properties; the lemmas and theorems. *)

From Stdlib Require Import ZArith NArith QArith List String Ascii Bool DecimalString.
From stdpp Require Import base option list gmap.

Set Warnings "-register-all".
Local Open Scope Z_scope.
Local Open Scope list_scope.

(** ** JavaScript strings *)

Module Js.

Definition jsstring := list N.

(** A string literal of the source (all of them are ASCII). *)
Definition lit (s : string) : jsstring :=
  map N_of_ascii (list_ascii_of_string s).

(** ECMAScript [WhiteSpace] and [LineTerminator] code points, the ones
    [String.prototype.trim] strips. All are in the basic plane. *)
Definition is_white_space (c : N) : bool :=
  ((c =? 9) || (c =? 10) || (c =? 11) || (c =? 12) || (c =? 13)
   || (c =? 32) || (c =? 160) || (c =? 5760)
   || ((8192 <=? c) && (c <=? 8202))
   || (c =? 8232) || (c =? 8233) || (c =? 8239) || (c =? 8287)
   || (c =? 12288) || (c =? 65279))%N.

Fixpoint trimStart (s : jsstring) : jsstring :=
  match s with
  | c :: s' => if is_white_space c then trimStart s' else s
  | [] => []
  end.

Definition trimEnd (s : jsstring) : jsstring := rev (trimStart (rev s)).

(** [s.trim()] *)
Definition trim (s : jsstring) : jsstring := trimEnd (trimStart s).

Definition is_empty (s : jsstring) : bool :=
  match s with [] => true | _ => false end.

(** [s === t] on strings *)
Definition str_eqb (s t : jsstring) : bool := bool_decide (s = t).

Fixpoint startsWith (p s : jsstring) : bool :=
  match p, s with
  | [], _ => true
  | a :: p', b :: s' => (a =? b)%N && startsWith p' s'
  | _ :: _, [] => false
  end.

Definition endsWith (p s : jsstring) : bool := startsWith (rev p) (rev s).

(** [s.includes(p)] *)
Fixpoint includes (p s : jsstring) : bool :=
  startsWith p s || match s with [] => false | _ :: s' => includes p s' end.

(** [s.substring(i, j)] for [0 <= i <= j] *)
Definition substring (i j : nat) (s : jsstring) : jsstring :=
  take (j - i) (drop i s).

(** [s.slice(0, -1)] *)
Definition slice_0_m1 (s : jsstring) : jsstring := take (length s - 1) s.

(** [`${n}`] for an integral number *)
Definition of_int (z : Z) : jsstring :=
  lit (NilZero.string_of_int (Z.to_int z)).

(** Values that reach the code from a parsed JSON body, or that it stores
    in the untyped fields of a result. *)
Inductive value :=
| VNull
| VBool (b : bool)
| VNum (q : Q)
| VStr (s : jsstring)
| VArr (items : list value)
| VObj (fields : list (jsstring * value)).

(** ToBoolean *)
Definition truthy (v : value) : bool :=
  match v with
  | VNull => false
  | VBool b => b
  | VNum q => negb (Qnum q =? 0)
  | VStr s => negb (is_empty s)
  | VArr _ | VObj _ => true
  end.

(** [undefined] is the absent value of an optional one. *)
Definition truthy_opt (v : option value) : bool :=
  match v with Some v => truthy v | None => false end.

(** [a || b] where [b] is a string literal *)
Definition or_else (a : option value) (b : jsstring) : value :=
  match a with
  | Some v => if truthy v then v else VStr b
  | None => VStr b
  end.

Fixpoint assoc (k : jsstring) (fields : list (jsstring * value)) : option value :=
  match fields with
  | [] => None
  | (k', v) :: rest => if str_eqb k k' then Some v else assoc k rest
  end.

(** What a [throw] carries. *)
Inductive thrown :=
| ThrownError (name message : jsstring)
| ThrownString (s : jsstring)
| ThrownOther.

(** [v.k]: a property read. Reading a property of [null] throws; the
    primitive values and the arrays have none of the property names the
    code reads. *)
Definition get (v : value) (k : jsstring) : option value + thrown :=
  match v with
  | VNull =>
      inr (ThrownError (lit "TypeError")
             (lit "Cannot read properties of null (reading '" ++ k ++ lit "')"))
  | VObj fields => inl (assoc k fields)
  | _ => inl None
  end.

End Js.
Import Js.


(** ** Data model

    [src/types.ts] is not among the sources: the records have the fields
    the code reads and writes. In a result, [code] and [signal] are [None]
    for JavaScript's [null]. *)

Record Language := {
  name : jsstring;
  compiler : jsstring;
  args : list jsstring;
  skipCompile : bool;
}.

Record Run := {
  stdout : value;
  stderr : value;
  code : option Z;
  signal : option jsstring;
  time : Z;
  timeOut : bool;
}.

(** ** The host: Node.js functions the code calls *)

Class Host := {
  os_tmpdir : jsstring;
  os_platform : jsstring;
  path_join : jsstring -> jsstring -> jsstring;
  path_basename : jsstring -> jsstring;
  path_basename_ext : jsstring -> jsstring -> jsstring;
  path_dirname : jsstring -> jsstring;
  path_extname : jsstring -> jsstring;
  path_parse_name : jsstring -> jsstring;
  utf8_encode : jsstring -> list N;
  toUpperCase : jsstring -> jsstring;
  (** [path.join] returns ["."] rather than a zero-length string. *)
  path_join_nonempty : forall a b, path_join a b <> [];
}.

(** ** The world: file system and the effects a caller can observe *)

Inductive part :=
| PString (s : jsstring)
| PFile (filename : jsstring) (content : list N).

Definition FormData := list (jsstring * part).

Inductive event :=
| ShowWarningMessage (msg : jsstring)
| ShowErrorMessage (msg : jsstring)
| JudgeViewMessage (command : jsstring)
| WriteFileSync (path : jsstring)
| UnlinkSync (path : jsstring)
| Fetch (endpoint : jsstring) (body : FormData).

Record World := {
  files : gmap jsstring (list N);
  events : list event;
  clock_reads : nat;
}.

(** What the HTTP server and the transport do with a request. *)
Record Response := {
  status : Z;
  body_text : jsstring + thrown;
  body_json : value + thrown;
}.

Definition response_ok (r : Response) : bool :=
  (200 <=? status r) && (status r <=? 299).

Inductive fetch_outcome :=
| FetchResolves (r : Response)
| FetchRejects (e : thrown).

Record TextDocument := {
  fileName : jsstring;
  isUntitled : bool;
}.

(** What one call finds around it: the preference, the successive readings
    of [Date.now()], the base-36 rendering of [Math.random()], the outcome
    of the request, what other tasks do to the file system while the call
    is suspended, what the system throws when it refuses to write a path
    (a directory that is missing or read-only) or to unlink a file that
    exists (a file held open by another program, a directory without
    write permission), the active editor, and [onlineJudgeEnv] of the
    compiler module. *)
Record Env := {
  cloudCompilerApiUrl : option jsstring;
  clock : nat -> Z;
  random36 : jsstring;
  fetch_result : fetch_outcome;
  fs_while_fetching : gmap jsstring (list N) -> gmap jsstring (list N);
  fs_while_reading_body : gmap jsstring (list N) -> gmap jsstring (list N);
  write_error : jsstring -> option thrown;
  unlink_error : jsstring -> option thrown;
  activeTextEditor : option TextDocument;
  onlineJudgeEnv : bool;
}.

(** ** A state-and-exception monad for the body of an async function

    The state is the world together with the local variable
    [inputFilePath], which the [finally] block of [compileAndRunViaApi]
    reads after the [try] block wrote it. *)

Record Frame := {
  world : World;
  inputFilePath : option jsstring;
}.

Definition M (A : Type) : Type := Frame -> (A + thrown) * Frame.

Definition ret {A} (a : A) : M A := fun f => (inl a, f).

Definition throw {A} (e : thrown) : M A := fun f => (inr e, f).

Definition bind {A B} (m : M A) (k : A -> M B) : M B :=
  fun f =>
    match m f with
    | (inl a, f') => k a f'
    | (inr e, f') => (inr e, f')
    end.

Notation "x <- m ;; k" := (bind m (fun x => k))
  (at level 100, m at next level, right associativity).
Notation "m ;;; k" := (bind m (fun _ => k))
  (at level 100, right associativity).

(** [try { m } catch (e) { h e }] *)
Definition try_catch {A} (m : M A) (h : thrown -> M A) : M A :=
  fun f =>
    match m f with
    | (inl a, f') => (inl a, f')
    | (inr e, f') => h e f'
    end.

(** [try { m } finally { c }]: [c] runs on both exits of [m]; what [c]
    throws replaces the outcome of [m]. *)
Definition try_finally {A} (m : M A) (c : M unit) : M A :=
  fun f =>
    match m f with
    | (r, f') =>
        match c f' with
        | (inl _, f'') => (r, f'')
        | (inr e, f'') => (inr e, f'')
        end
    end.

Definition get_world : M World := fun f => (inl (world f), f).

Definition put_world (w : World) : M unit :=
  fun f => (inl tt, {| world := w; inputFilePath := inputFilePath f |}).

Definition get_inputFilePath : M (option jsstring) :=
  fun f => (inl (inputFilePath f), f).

Definition set_inputFilePath (p : option jsstring) : M unit :=
  fun f => (inl tt, {| world := world f; inputFilePath := p |}).

Definition emit (e : event) : M unit :=
  w <- get_world ;;
  put_world {| files := files w; events := events w ++ [e];
               clock_reads := clock_reads w |}.

Definition set_files (fs : gmap jsstring (list N)) : M unit :=
  w <- get_world ;;
  put_world {| files := fs; events := events w; clock_reads := clock_reads w |}.

(** [Date.now()] *)
Definition date_now (env : Env) : M Z :=
  w <- get_world ;;
  put_world {| files := files w; events := events w;
               clock_reads := S (clock_reads w) |} ;;;
  ret (clock env (clock_reads w)).

(** ** [fs] *)

Definition enoent (syscall path : jsstring) : thrown :=
  ThrownError (lit "Error")
    (lit "ENOENT: no such file or directory, " ++ syscall ++ lit " '" ++ path ++ lit "'").

Definition existsSync (p : jsstring) : M bool :=
  w <- get_world ;; ret (bool_decide (is_Some (files w !! p))).

Definition readFileSync (p : jsstring) : M (list N) :=
  w <- get_world ;;
  match files w !! p with
  | Some c => ret c
  | None => throw (enoent (lit "open") p)
  end.

(** A write that the system refuses throws and leaves the disk as it
    is; the event records a write that was done. *)
Definition writeFileSync (env : Env) (p : jsstring) (c : list N) : M unit :=
  match write_error env p with
  | Some e => throw e
  | None =>
      w <- get_world ;;
      set_files (<[p := c]> (files w)) ;;;
      emit (WriteFileSync p)
  end.

(** Unlinking throws for a missing file, and for a file the system
    refuses to remove; the event records a removal that was done. *)
Definition unlinkSync (env : Env) (p : jsstring) : M unit :=
  w <- get_world ;;
  match files w !! p with
  | Some _ =>
      match unlink_error env p with
      | Some e => throw e
      | None => set_files (delete p (files w)) ;;; emit (UnlinkSync p)
      end
  | None => throw (enoent (lit "unlink") p)
  end.

(** ** [src/apiClient.ts] *)

(** [mapLanguageToApi]; [None] is [null]. The [switch] compares the name
    with each label in turn and ends in the [default] case. *)
Definition mapLanguageToApi (extLanguage : jsstring) : option jsstring :=
  if str_eqb extLanguage (lit "c") then Some (lit "c")
  else if str_eqb extLanguage (lit "cpp") || str_eqb extLanguage (lit "cc")
          || str_eqb extLanguage (lit "cxx") then Some (lit "cpp")
  else if str_eqb extLanguage (lit "python") then Some (lit "python")
  else if str_eqb extLanguage (lit "java") then Some (lit "java")
  else if str_eqb extLanguage (lit "js") then Some (lit "javascript")
  else if str_eqb extLanguage (lit "rust") then Some (lit "rust")
  else if str_eqb extLanguage (lit "go") then Some (lit "go")
  else if str_eqb extLanguage (lit "csharp") then Some (lit "csharp")
  else if str_eqb extLanguage (lit "ruby") || str_eqb extLanguage (lit "hs")
          || str_eqb extLanguage (lit "cangjie") then None
  else None.

(** [!apiUrl || apiUrl.trim() === ''], for a preference that may be
    undefined. *)
Definition url_blank (apiUrl : option jsstring) : bool :=
  match apiUrl with
  | None => true
  | Some u => is_empty u || str_eqb (trim u) []
  end.

(** [!apiLanguage] *)
Definition tag_missing (apiLanguage : option jsstring) : bool :=
  match apiLanguage with
  | None => true
  | Some t => is_empty t
  end.

Definition shouldUseCloudApi (env : Env) (language : Language) : bool :=
  let apiUrl := cloudCompilerApiUrl env in
  if url_blank apiUrl then false
  else
    let apiLanguage := mapLanguageToApi (name language) in
    bool_decide (apiLanguage <> None).

(** [s.replace(/\/$/, '')] *)
Definition strip_trailing_slash (s : jsstring) : jsstring :=
  if endsWith (lit "/") s then take (length s - 1) s else s.

Section ApiClient.
Context `{H : Host} (env : Env).

Definition unsupported_message (language : Language) : jsstring :=
  let languageDisplayName := toUpperCase (name language) in
  lit "This language (" ++ languageDisplayName
  ++ lit ") is not yet supported by the cloud compiler. The developers are working on adding support for it. Please use local compilation for now.".

(** Lines 84-91: the temporary input file. *)
Definition create_input_file (input : jsstring) : M unit :=
  if negb (is_empty input) && negb (str_eqb (trim input) []) then
    tempDir <- ret os_tmpdir ;;
    now <- date_now env ;;
    let inputFileName :=
      lit "cph_input_" ++ of_int now ++ lit "_"
      ++ substring 2 11 (random36 env) ++ lit ".txt" in
    set_inputFilePath (Some (path_join tempDir inputFileName)) ;;;
    writeFileSync env (path_join tempDir inputFileName) (utf8_encode input)
  else ret tt.

(** Lines 93-113: the multipart body. *)
Definition build_form (srcPath apiLanguage : jsstring) : M FormData :=
  sourceCodeBuffer <- readFileSync srcPath ;;
  let sourceFileName := path_basename srcPath in
  let formData :=
    [(lit "lang", PString apiLanguage);
     (lit "code", PFile sourceFileName sourceCodeBuffer)] in
  p <- get_inputFilePath ;;
  match p with
  | Some inputFilePath =>
      present <- existsSync inputFilePath ;;
      if negb (is_empty inputFilePath) && present then
        inputBuffer <- readFileSync inputFilePath ;;
        ret (formData ++ [(lit "input", PFile (path_basename inputFilePath) inputBuffer)])
      else ret formData
  | None => ret formData
  end.

(** [await fetch(endpoint, { method: 'POST', body: formData })] *)
Definition fetch (endpoint : jsstring) (formData : FormData) : M Response :=
  emit (Fetch endpoint formData) ;;;
  w <- get_world ;;
  set_files (fs_while_fetching env (files w)) ;;;
  match fetch_result env with
  | FetchResolves r => ret r
  | FetchRejects e => throw e
  end.

(** An [await] on the body of the response. *)
Definition await_body {A} (r : A + thrown) : M A :=
  w <- get_world ;;
  set_files (fs_while_reading_body env (files w)) ;;;
  match r with
  | inl a => ret a
  | inr e => throw e
  end.

Definition get_prop (v : value) (k : jsstring) : M (option value) :=
  match get v k with
  | inl o => ret o
  | inr e => throw e
  end.

(** Lines 84-176: the [try] block. *)
Definition try_block (srcPath input apiUrl apiLanguage : jsstring) (begin : Z) : M Run :=
  create_input_file input ;;;
  formData <- build_form srcPath apiLanguage ;;
  emit (JudgeViewMessage (lit "compiling-start")) ;;;
  let endpoint := strip_trailing_slash apiUrl ++ lit "/compile" in
  response <- try_finally (fetch endpoint formData)
                (emit (JudgeViewMessage (lit "compiling-stop"))) ;;
  end_ <- date_now env ;;
  let time := end_ - begin in
  if negb (response_ok response) then
    errorText <- try_catch (await_body (body_text response))
                   (fun _ => ret (lit "Unknown error")) ;;
    ret {| stdout := VStr [];
           stderr := VStr (lit "API request failed with status "
                           ++ of_int (status response) ++ lit ": " ++ errorText);
           code := Some (status response);
           signal := None;
           time := time;
           timeOut := false |}
  else
    result <- await_body (body_json response) ;;
    success <- get_prop result (lit "success") ;;
    if truthy_opt success then
      output <- get_prop result (lit "output") ;;
      ret {| stdout := or_else output [];
             stderr := VStr [];
             code := Some 0;
             signal := None;
             time := time;
             timeOut := false |}
    else
      output <- get_prop result (lit "output") ;;
      error <- get_prop result (lit "error") ;;
      ret {| stdout := or_else output [];
             stderr := or_else error (lit "Unknown error");
             code := Some 1;
             signal := None;
             time := time;
             timeOut := false |}.

(** Lines 183-188: the message of what was thrown. *)
Definition message_of (error : thrown) : jsstring :=
  match error with
  | ThrownError _ message => message
  | ThrownString s => s
  | ThrownOther => lit "Unknown error"
  end.

(** Lines 190-195: the common network errors. *)
Definition explain (apiUrl errorMessage : jsstring) : jsstring :=
  if includes (lit "ECONNREFUSED") errorMessage
     || includes (lit "ENOTFOUND") errorMessage then
    lit "Cannot connect to cloud compiler API at " ++ apiUrl
    ++ lit ". Please check if the server is running and the URL is correct."
  else if includes (lit "ETIMEDOUT") errorMessage
          || includes (lit "timeout") errorMessage then
    lit "Request to cloud compiler API timed out. Please try again."
  else errorMessage.

(** Lines 177-206: the [catch] block. *)
Definition catch_block (apiUrl : jsstring) (begin : Z) (error : thrown) : M Run :=
  end_ <- date_now env ;;
  let time := end_ - begin in
  let errorMessage := explain apiUrl (message_of error) in
  emit (ShowErrorMessage (lit "Cloud compiler error: " ++ errorMessage)) ;;;
  ret {| stdout := VStr [];
         stderr := VStr errorMessage;
         code := Some 1;
         signal := None;
         time := time;
         timeOut := false |}.

(** Lines 207-217: the [finally] block. *)
Definition finally_block : M unit :=
  p <- get_inputFilePath ;;
  match p with
  | Some inputFilePath =>
      present <- existsSync inputFilePath ;;
      if negb (is_empty inputFilePath) && present then
        try_catch (unlinkSync env inputFilePath) (fun _ => ret tt)
      else ret tt
  | None => ret tt
  end.

Definition compileAndRunViaApi_body (srcPath input : jsstring) (language : Language) : M Run :=
  let apiUrl := cloudCompilerApiUrl env in
  let apiLanguage := mapLanguageToApi (name language) in
  if url_blank apiUrl then
    throw (ThrownError (lit "Error") (lit "Cloud API not configured"))
  else if tag_missing apiLanguage then
    emit (ShowWarningMessage (unsupported_message language)) ;;;
    throw (ThrownError (lit "Error") (unsupported_message language))
  else
    let url := default [] apiUrl in
    let tag := default [] apiLanguage in
    begin <- date_now env ;;
    set_inputFilePath None ;;;
    try_finally
      (try_catch (try_block srcPath input url tag begin)
                 (catch_block url begin))
      finally_block.

(** The call as its caller sees it: the promise settles with a result or a
    rejection, and the world has changed. *)
Definition compileAndRunViaApi (srcPath input : jsstring) (language : Language)
    (w : World) : (Run + thrown) * World :=
  let '(r, f) := compileAndRunViaApi_body srcPath input language
                   {| world := w; inputFilePath := None |} in
  (r, world f).

End ApiClient.

(** ** [src/executions.ts]: the dispatcher *)

Record SpawnSpec := {
  command : jsstring;
  argv : list jsstring;
  with_spawnOpts : bool;
}.

(** How the synchronous part of [runTestCase] ends: with the result of the
    remote client (awaited and returned as it is), with the failure result
    of the source lookup, or with a local process started under a timer of
    [getTimeOutPref()] milliseconds. *)
Inductive dispatched :=
| ViaApi (srcPath : jsstring) (outcome : Run + thrown)
| NoSource (r : Run)
| Local (spec : SpawnSpec).

Definition add_event (e : event) (w : World) : World :=
  {| files := files w; events := events w ++ [e]; clock_reads := clock_reads w |}.

(** [binPath.replace(/\.(bin|_bin)$/, '')] *)
Definition strip_bin_suffix (binPath : jsstring) : jsstring :=
  if endsWith (lit ".bin") binPath then take (length binPath - 4) binPath
  else if endsWith (lit "._bin") binPath then take (length binPath - 5) binPath
  else binPath.

(** [possibleExtensions[language.name] || []], for the names the remote
    client accepts (no other name reaches the lookup). *)
Definition possibleExtensions (lang : jsstring) : list jsstring :=
  if str_eqb lang (lit "cpp") then [lit ".cpp"; lit ".cc"; lit ".cxx"]
  else if str_eqb lang (lit "c") then [lit ".c"]
  else if str_eqb lang (lit "rust") then [lit ".rs"]
  else if str_eqb lang (lit "go") then [lit ".go"]
  else if str_eqb lang (lit "java") then [lit ".java"]
  else if str_eqb lang (lit "csharp") then [lit ".cs"]
  else if str_eqb lang (lit "hs") then [lit ".hs"]
  else if str_eqb lang (lit "cangjie") then [lit ".cj"]
  else [].

Definition file_exists (w : World) (p : jsstring) : bool :=
  bool_decide (is_Some (files w !! p)).

(** The [for] loop of lines 69-76: the first candidate on disk, else the
    base path. *)
Fixpoint first_existing (w : World) (basePath : jsstring) (extensions : list jsstring) : jsstring :=
  match extensions with
  | [] => basePath
  | ext :: rest =>
      let candidate := basePath ++ ext in
      if file_exists w candidate then candidate else first_existing w basePath rest
  end.

Section Dispatcher.
Context `{H : Host} (env : Env).

(** Lines 48-85. *)
Definition source_of_binary (w : World) (language : Language) (binPath : jsstring) : jsstring :=
  if skipCompile language then binPath
  else
    let binExt := path_extname binPath in
    if str_eqb binExt (lit ".bin") || str_eqb binExt (lit "_bin") then
      first_existing w (strip_bin_suffix binPath) (possibleExtensions (name language))
    else if str_eqb binExt (lit ".class") then
      let dir := path_dirname binPath in
      let className := path_basename_ext binPath (lit ".class") in
      path_join dir (className ++ lit ".java")
    else binPath.

Definition fallback_warning (language : Language) : jsstring :=
  let languageDisplayName := toUpperCase (name language) in
  lit "This language (" ++ languageDisplayName
  ++ lit ") is not yet supported by the cloud compiler. The developers are working on adding support for it. Falling back to local compilation.".

(** Lines 134-137: on Windows the descriptor itself is rewritten. *)
Definition alias_interpreter (language : Language) : Language :=
  if str_eqb os_platform (lit "win32") && str_eqb (compiler language) (lit "python3") then
    {| name := name language; compiler := lit "python";
       args := args language; skipCompile := skipCompile language |}
  else language.

(** Lines 139-205: the [switch] on the language name. *)
Definition spawn_spec (language : Language) (binPath : jsstring) : SpawnSpec :=
  if str_eqb (name language) (lit "python") || str_eqb (name language) (lit "ruby")
     || str_eqb (name language) (lit "js") then
    {| command := compiler language; argv := binPath :: args language;
       with_spawnOpts := true |}
  else if str_eqb (name language) (lit "java") then
    let args0 := if onlineJudgeEnv env then [lit "-DONLINE_JUDGE"] else [] in
    let binDir := path_dirname binPath in
    let binFileName := slice_0_m1 (path_parse_name binPath) in
    {| command := lit "java";
       argv := args0 ++ [lit "-cp"; binDir; binFileName];
       with_spawnOpts := false |}
  else if str_eqb (name language) (lit "csharp") then
    if includes (lit "dotnet") (compiler language) then
      let projName := lit ".cphcsrun" in
      let binFileName :=
        if str_eqb os_platform (lit "linux") then projName else projName ++ lit ".exe" in
      {| command := path_join binPath binFileName;
         argv := [lit "/stack:67108864"]; with_spawnOpts := true |}
    else
      {| command := lit "mono"; argv := [binPath]; with_spawnOpts := true |}
  else
    {| command := binPath; argv := []; with_spawnOpts := true |}.

(** [runTestCase] up to the point where it returns the promise. The
    descriptor is an object shared with the caller: the second component
    is its state when the function returns. *)
Definition runTestCase (language : Language) (binPath input : jsstring) (w : World)
    : dispatched * Language * World :=
  let apiUrl := cloudCompilerApiUrl env in
  let apiLanguage := mapLanguageToApi (name language) in
  let w :=
    if negb (url_blank apiUrl) && tag_missing apiLanguage
    then add_event (ShowWarningMessage (fallback_warning language)) w
    else w in
  if shouldUseCloudApi env language then
    let srcPath := source_of_binary w language binPath in
    if negb (file_exists w srcPath) then
      match activeTextEditor env with
      | Some document =>
          if negb (isUntitled document) then
            let '(r, w') := compileAndRunViaApi env (fileName document) input language w in
            (ViaApi (fileName document) r, language, w')
          else
            (NoSource {| stdout := VStr [];
                         stderr := VStr (lit "Could not determine source file path for cloud compilation");
                         code := Some 1; signal := None; time := 0; timeOut := false |},
             language, w)
      | None =>
          (NoSource {| stdout := VStr [];
                       stderr := VStr (lit "Could not determine source file path for cloud compilation");
                       code := Some 1; signal := None; time := 0; timeOut := false |},
           language, w)
      end
    else
      let '(r, w') := compileAndRunViaApi env srcPath input language w in
      (ViaApi srcPath r, language, w')
  else
    let language := alias_interpreter language in
    (Local (spawn_spec language binPath), language, w).

End Dispatcher.

(** ** [src/executions.ts]: local processes and the registry

    After [spawn], [runTestCase] only reacts to events: chunks of output,
    the timer, the [exit] and [error] events of the child, and calls of
    [killRunning]. The system is a transition function on the state shared
    by all pending calls; a process is named by a number.

    Two things happen besides the handlers of [runTestCase]. The options
    [spawnOpts] carry [timeout: config.timeout]: for a positive value
    Node.js sets a timer of its own that sends [SIGTERM] to the child,
    once, unless the child has exited ([./config] is not among the
    sources; for a value that is not positive, and for [java], started
    without options, the event of that timer does not occur). And [spawn]
    can throw instead of returning a child: the [async] function then
    rejects, after the timer [killer] was set and before any handler was
    attached. *)

Inductive proc_state := Running | Exited | SpawnFailed.

(** A child process: its state, the signals it was sent, what was written
    to its standard input, and whether the timer of the [timeout] option
    can still fire. *)
Record Proc := {
  pstate : proc_state;
  signals_sent : list jsstring;
  stdin_received : jsstring;
  spawn_timer : bool;
}.

(** The closure of one call: the [result] object (the promise resolves
    with this very object), the [killer] timer, [begin], whether [resolve]
    was called, and whether the call was rejected because [spawn] threw. *)
Record Call := {
  result : Run;
  killer_pending : bool;
  begin_ : Z;
  resolved : bool;
  rejected : bool;
  launcher : jsstring;
}.

Record System := {
  runningBinaries : list nat;
  procs : gmap nat Proc;
  calls : gmap nat Call;
  shown : list event;
}.

Definition initial : System :=
  {| runningBinaries := []; procs := ∅; calls := ∅; shown := [] |}.

(** [exit] carries a code or a signal name, one of them not [null]. *)
Inductive exit_status :=
| ExitCode (c : Z)
| ExitSignal (s : jsstring).

(** [Start]: [spawn] returned a child, which runs ([spawned]) or could not
    be launched and will emit [error]. [SpawnThrows]: [spawn] threw.
    [SpawnTimeout]: the timer of the [timeout] option fires. *)
Inductive label :=
| Start (p : nat) (spawned : bool) (compiler_ input : jsstring) (now : Z)
| SpawnThrows (p : nat) (compiler_ : jsstring)
| StdoutData (p : nat) (data : jsstring)
| StderrData (p : nat) (data : jsstring)
| KillerFires (p : nat)
| SpawnTimeout (p : nat)
| Exit (p : nat) (st : exit_status) (now : Z)
| Error (p : nat) (err_name : jsstring) (now : Z)
| KillRunning.

(** The default signal of [kill], delivered to a live process. *)
Definition deliver_sigterm (pr : Proc) : Proc :=
  match pstate pr with
  | Running => {| pstate := Running;
                  signals_sent := signals_sent pr ++ [lit "SIGTERM"];
                  stdin_received := stdin_received pr;
                  spawn_timer := spawn_timer pr |}
  | _ => pr
  end.

(** [process.kill()]; for a call whose [spawn] threw, [process] is
    undefined, no process is signalled (and the callback throws). *)
Definition kill (p : nat) (ps : gmap nat Proc) : gmap nat Proc :=
  alter deliver_sigterm p ps.

(** [result.stdout += data]; the local path stores strings only. *)
Definition append_data (v : value) (data : jsstring) : value :=
  match v with
  | VStr s => VStr (s ++ data)
  | _ => v
  end.

(** [runningBinaries.pop()] *)
Definition pop (l : list nat) : list nat := removelast l.

Definition empty_result : Run :=
  {| stdout := VStr []; stderr := VStr []; code := None; signal := None;
     time := 0; timeOut := false |}.

Definition set_pstate (st : proc_state) (pr : Proc) : Proc :=
  {| pstate := st; signals_sent := signals_sent pr;
     stdin_received := stdin_received pr; spawn_timer := spawn_timer pr |}.

(** The timer of the [timeout] option is spent: it fired, or the child
    exited. *)
Definition spend_spawn_timer (pr : Proc) : Proc :=
  {| pstate := pstate pr; signals_sent := signals_sent pr;
     stdin_received := stdin_received pr; spawn_timer := false |}.

(** The call of [p] with another [result] object state, timer and
    resolution. *)
Definition update_call (c : Call) (r : Run) (pending res : bool) : Call :=
  {| result := r; killer_pending := pending; begin_ := begin_ c;
     resolved := res; rejected := rejected c; launcher := launcher c |}.

Definition step (l : label) (s : System) : option System :=
  match l with
  | Start p spawned compiler_ input now =>
      match calls s !! p with
      | Some _ => None
      | None =>
          Some {| runningBinaries := runningBinaries s ++ [p];
                  procs := <[p := {| pstate := if spawned then Running else SpawnFailed;
                                     signals_sent := [];
                                     stdin_received := input;
                                     spawn_timer := true |}]> (procs s);
                  calls := <[p := {| result := empty_result; killer_pending := true;
                                     begin_ := now; resolved := false;
                                     rejected := false;
                                     launcher := compiler_ |}]> (calls s);
                  shown := shown s |}
      end
  | SpawnThrows p compiler_ =>
      (* lines 110-132 have run, line 214 and the handlers have not *)
      match calls s !! p with
      | Some _ => None
      | None =>
          Some {| runningBinaries := runningBinaries s;
                  procs := procs s;
                  calls := <[p := {| result := empty_result; killer_pending := true;
                                     begin_ := 0; resolved := false;
                                     rejected := true;
                                     launcher := compiler_ |}]> (calls s);
                  shown := shown s |}
      end
  | StdoutData p data =>
      c ← calls s !! p;
      if rejected c then None else
      let r := result c in
      Some {| runningBinaries := runningBinaries s; procs := procs s;
              calls := <[p := update_call c
                                {| stdout := append_data (stdout r) data;
                                   stderr := stderr r; code := code r;
                                   signal := signal r; time := time r;
                                   timeOut := timeOut r |}
                                (killer_pending c) (resolved c)]> (calls s);
              shown := shown s |}
  | StderrData p data =>
      c ← calls s !! p;
      if rejected c then None else
      let r := result c in
      Some {| runningBinaries := runningBinaries s; procs := procs s;
              calls := <[p := update_call c
                                {| stdout := stdout r;
                                   stderr := append_data (stderr r) data;
                                   code := code r;
                                   signal := signal r; time := time r;
                                   timeOut := timeOut r |}
                                (killer_pending c) (resolved c)]> (calls s);
              shown := shown s |}
  | KillerFires p =>
      c ← calls s !! p;
      if killer_pending c then
        let r := result c in
        Some {| runningBinaries := runningBinaries s;
                procs := kill p (procs s);
                calls := <[p := update_call c
                                  {| stdout := stdout r; stderr := stderr r;
                                     code := code r; signal := signal r;
                                     time := time r; timeOut := true |}
                                  false (resolved c)]> (calls s);
                shown := shown s |}
      else None
  | SpawnTimeout p =>
      pr ← procs s !! p;
      if spawn_timer pr then
        Some {| runningBinaries := runningBinaries s;
                procs := <[p := spend_spawn_timer (deliver_sigterm pr)]> (procs s);
                calls := calls s;
                shown := shown s |}
      else None
  | Exit p st now =>
      c ← calls s !! p;
      pr ← procs s !! p;
      match pstate pr with
      | Running =>
          let r := result c in
          Some {| runningBinaries := pop (runningBinaries s);
                  procs := <[p := spend_spawn_timer (set_pstate Exited pr)]> (procs s);
                  calls := <[p := update_call c
                                    {| stdout := stdout r; stderr := stderr r;
                                       code := match st with ExitCode z => Some z | ExitSignal _ => None end;
                                       signal := match st with ExitCode _ => None | ExitSignal g => Some g end;
                                       time := now - begin_ c; timeOut := timeOut r |}
                                    false true]> (calls s);
                  shown := shown s |}
      | _ => None
      end
  | Error p err_name now =>
      c ← calls s !! p;
      pr ← procs s !! p;
      match pstate pr with
      | Exited => None
      | _ =>
          let r := result c in
          Some {| runningBinaries := pop (runningBinaries s);
                  procs := procs s;
                  calls := <[p := update_call c
                                    {| stdout := stdout r; stderr := stderr r;
                                       code := Some 1; signal := Some err_name;
                                       time := now - begin_ c; timeOut := timeOut r |}
                                    false true]> (calls s);
                  shown := shown s ++
                    [ShowErrorMessage (lit "Could not launch testcase process. Is '"
                                       ++ launcher c ++ lit "' in your PATH?")] |}
      end
  | KillRunning =>
      Some {| runningBinaries := runningBinaries s;
              procs := foldl (fun ps p => kill p ps) (procs s) (runningBinaries s);
              calls := calls s;
              shown := shown s |}
  end.

(** A run of the system: the events in the order the event loop delivers
    them; [None] when one of them cannot occur in the state it meets. *)
Fixpoint run (tr : list label) (s : System) : option System :=
  match tr with
  | [] => Some s
  | l :: tr' => s' ← step l s; run tr' s'
  end.

(** The result a caller holds once its promise is resolved. *)
Definition outcome_of (p : nat) (s : System) : option Run :=
  c ← calls s !! p;
  if resolved c then Some (result c) else None.

Definition is_running (p : nat) (s : System) : bool :=
  match procs s !! p with
  | Some pr => match pstate pr with Running => true | _ => false end
  | None => false
  end.

(** ** [src/quickRun.ts] *)

(** [s.replace(/c/g, rep)] for a pattern of one literal character and a
    replacement without pattern characters. *)
Definition replace_all (c : N) (rep : jsstring) (s : jsstring) : jsstring :=
  flat_map (fun x => if (x =? c)%N then rep else [x]) s.

Definition caret : N := 94.
Definition ampersand : N := 38.
Definition bar : N := 124.
Definition less : N := 60.
Definition greater : N := 62.
Definition quote : N := 34.
Definition backslash : N := 92.
Definition dollar : N := 36.
Definition backtick : N := 96.

(** [escapeForEcho]: six replacements one after the other, then the
    wrapping quotes. *)
Definition escapeForEcho (str : jsstring) : jsstring :=
  let escaped :=
    replace_all quote [backslash; quote]
      (replace_all greater [caret; greater]
         (replace_all less [caret; less]
            (replace_all bar [caret; bar]
               (replace_all ampersand [caret; ampersand]
                  (replace_all caret [caret; caret] str))))) in
  [quote] ++ escaped ++ [quote].

(** [escapeForTerminal] *)
Definition escapeForTerminal (str : jsstring) : jsstring :=
  replace_all backtick [backslash; backtick]
    (replace_all dollar [backslash; dollar]
       (replace_all quote [backslash; quote]
          (replace_all backslash [backslash; backslash] str))).

(** What [escapeForEcho] makes of one character. *)
Definition echo_escape (x : N) : jsstring :=
  if (x =? caret)%N || (x =? ampersand)%N || (x =? bar)%N
     || (x =? less)%N || (x =? greater)%N then [caret; x]
  else if (x =? quote)%N then [backslash; quote]
  else [x].

(** What [escapeForTerminal] makes of one character. *)
Definition terminal_escape (x : N) : jsstring :=
  if (x =? backslash)%N || (x =? quote)%N || (x =? dollar)%N || (x =? backtick)%N
  then [backslash; x] else [x].

(** Reading back a string in which a backslash protects the next
    character. *)
Fixpoint unescape_backslash (s : jsstring) : jsstring :=
  match s with
  | [] => []
  | x :: rest =>
      if (x =? backslash)%N then
        match rest with
        | y :: rest' => y :: unescape_backslash rest'
        | [] => [x]
        end
      else x :: unescape_backslash rest
  end.

(** Reading back the text between the quotes of [escapeForEcho]: a caret
    protects the next character, a backslash a double quote. *)
Fixpoint unescape_echo (s : jsstring) : jsstring :=
  match s with
  | [] => []
  | x :: rest =>
      if (x =? caret)%N then
        match rest with
        | y :: rest' => y :: unescape_echo rest'
        | [] => [x]
        end
      else if (x =? backslash)%N then
        match rest with
        | y :: rest' =>
            if (y =? quote)%N then quote :: unescape_echo rest'
            else x :: unescape_echo rest
        | [] => [x]
        end
      else x :: unescape_echo rest
  end.

(** *** [quickRun]

    What the quick run finds around it besides [Env]: the button picked in
    the warning about an unsaved file ([None] when the warning is
    dismissed), what saving writes to disk, [getLanguage] of [./utils]
    (not among the sources), the decoding of a file read as UTF-8, the text
    JavaScript makes of a value that is not a string and of a thrown
    value, and whether the terminal named [CPH Quick Run] is open. *)
Record QuickEnv := {
  saveChoice : option jsstring;
  fs_after_save : gmap jsstring (list N) -> gmap jsstring (list N);
  getLanguage : jsstring -> Language + thrown;
  utf8_decode : list N -> jsstring;
  text_of_value : value -> jsstring;
  text_of_thrown : thrown -> jsstring;
  terminal_open : bool;
}.

Inductive terminal_event :=
| CreateTerminal (name : jsstring)
| TerminalShow
| SendText (text : jsstring)
| CleanupIn5000 (path : jsstring).

(** The world, the information messages shown, and what was done with the
    terminal. *)
Record QuickState := {
  qworld : World;
  informations : list jsstring;
  terminal : list terminal_event;
}.

Definition show_error (msg : jsstring) (st : QuickState) : QuickState :=
  {| qworld := add_event (ShowErrorMessage msg) (qworld st);
     informations := informations st; terminal := terminal st |}.

Definition show_warning (msg : jsstring) (st : QuickState) : QuickState :=
  {| qworld := add_event (ShowWarningMessage msg) (qworld st);
     informations := informations st; terminal := terminal st |}.

Definition show_information (msg : jsstring) (st : QuickState) : QuickState :=
  {| qworld := qworld st;
     informations := informations st ++ [msg]; terminal := terminal st |}.

Definition on_terminal (e : terminal_event) (st : QuickState) : QuickState :=
  {| qworld := qworld st;
     informations := informations st; terminal := terminal st ++ [e] |}.

Definition with_world (w : World) (st : QuickState) : QuickState :=
  {| qworld := w; informations := informations st; terminal := terminal st |}.

Definition with_files (fs : gmap jsstring (list N)) (w : World) : World :=
  {| files := fs; events := events w; clock_reads := clock_reads w |}.

(** [`${v}`] *)
Definition template_text (q : QuickEnv) (v : value) : jsstring :=
  match v with
  | VStr s => s
  | _ => text_of_value q v
  end.

(** [a || b] on two values *)
Definition or_value (a b : value) : value := if truthy a then a else b.

(** [result.code !== 0 || result.stderr] *)
Definition shows_error (result : Run) : bool :=
  negb (bool_decide (code result = Some 0)) || truthy (stderr result).

(** [result.stderr || result.stdout || 'Unknown error'] *)
Definition errorMsg_of (result : Run) : value :=
  or_value (or_value (stderr result) (stdout result)) (VStr (lit "Unknown error")).

(** [escapeForEcho(v)]: the method [replace] exists on strings only. *)
Definition escapeForEcho_of (v : value) : jsstring + thrown :=
  match v with
  | VStr s => inl (escapeForEcho s)
  | _ => inr (ThrownError (lit "TypeError") (lit "str.replace is not a function"))
  end.

(** [error.message || error] in a template *)
Definition message_or_text (q : QuickEnv) (error : thrown) : jsstring :=
  match error with
  | ThrownError _ message => if is_empty message then text_of_thrown q error else message
  | ThrownString s => s
  | ThrownOther => text_of_thrown q error
  end.

Definition newline : N := 10.

Section QuickRun.
Context `{H : Host} (env : Env) (q : QuickEnv).

(** Lines 106-148: the result goes to the terminal through a temporary
    file, or through [echo] when the file cannot be written. The outcome
    is the state, or what the [catch] block itself threw. *)
Definition show_in_terminal (fileDir : jsstring) (result : Run) (st : QuickState)
    : QuickState + thrown * QuickState :=
  let output := or_value (stdout result) (VStr []) in
  let tempOutputFile := path_join fileDir (lit ".cph_output_temp.txt") in
  let text :=
    if shows_error result
    then lit "=== ERROR ===" ++ [newline] ++ template_text q (errorMsg_of result)
    else lit "=== OUTPUT ===" ++ [newline] ++ template_text q output in
  match write_error env tempOutputFile with
  | None =>
      let w := qworld st in
      let st := with_world (add_event (WriteFileSync tempOutputFile)
                              (with_files (<[tempOutputFile := utf8_encode text]> (files w)) w))
                  st in
      let isWindows := str_eqb os_platform (lit "win32") in
      let st :=
        if isWindows
        then on_terminal (SendText (lit "type " ++ [quote] ++ tempOutputFile ++ [quote])) st
        else on_terminal (SendText (lit "cat " ++ [quote] ++ tempOutputFile ++ [quote])) st in
      inl (on_terminal (CleanupIn5000 tempOutputFile) st)
  | Some fileError =>
      if shows_error result then
        let st := on_terminal (SendText (lit "echo === ERROR ===")) st in
        match escapeForEcho_of (errorMsg_of result) with
        | inl escaped => inl (on_terminal (SendText (lit "echo " ++ escaped)) st)
        | inr e => inr (e, st)
        end
      else
        let st := on_terminal (SendText (lit "echo === OUTPUT ===")) st in
        match escapeForEcho_of output with
        | inl escaped => inl (on_terminal (SendText (lit "echo " ++ escaped)) st)
        | inr e => inr (e, st)
        end
  end.

(** Lines 84-160: from [Running code...] to the end. *)
Definition run_and_show (srcPath fileDir input : jsstring) (language : Language)
    (st : QuickState) : QuickState :=
  let st := show_information (lit "Running code...") st in
  let '(outcome, w) := compileAndRunViaApi env srcPath input language (qworld st) in
  let st := with_world w st in
  match outcome with
  | inr error =>
      show_error (lit "Failed to run code: " ++ message_or_text q error) st
  | inl result =>
      let st :=
        if terminal_open q then st
        else on_terminal (CreateTerminal (lit "CPH Quick Run")) st in
      let st := on_terminal TerminalShow st in
      match show_in_terminal fileDir result st with
      | inr (error, st) =>
          show_error (lit "Failed to run code: " ++ message_or_text q error) st
      | inl st =>
          if bool_decide (code result = Some 0)
          then show_information (lit "Code executed successfully!") st
          else show_error (lit "Code execution failed. Check terminal for details.") st
      end
  end.

(** Lines 37-82: the checks between the saved file and the request. The
    read of line 52 follows the test of line 42 on the same disk and finds
    the file; its handler (lines 53-55) has no run here. *)
Definition check_and_run (srcPath : jsstring) (st : QuickState) : QuickState :=
  let fileDir := path_dirname srcPath in
  let inputFilePath := path_join fileDir (lit "input.txt") in
  match files (qworld st) !! inputFilePath with
  | None =>
      show_error (lit "input.txt not found in " ++ fileDir
                  ++ lit ". Please create input.txt file in the same directory.") st
  | Some bytes =>
      let input := utf8_decode q bytes in
      match getLanguage q srcPath with
      | inr error =>
          show_error (lit "Unsupported file type: " ++ path_extname srcPath) st
      | inl language =>
          let apiUrl := cloudCompilerApiUrl env in
          if url_blank apiUrl then
            show_error (lit "Cloud compiler API is not configured. Please set cph.general.cloudCompilerApiUrl in settings.") st
          else if negb (shouldUseCloudApi env language) then
            show_warning (lit "This language (" ++ toUpperCase (name language)
                          ++ lit ") is not yet supported by the cloud compiler. The developers are working on adding support for it.") st
          else run_and_show srcPath fileDir input language st
      end
  end.

(** [quickRun] *)
Definition quickRun (st : QuickState) : QuickState :=
  match activeTextEditor env with
  | None => show_error (lit "No active editor found. Please open a file first.") st
  | Some document =>
      let srcPath := fileName document in
      if isUntitled document then
        let st := show_warning (lit "File is not saved. Please save the file first.") st in
        if bool_decide (saveChoice q = Some (lit "Save and Run")) then
          check_and_run srcPath
            (with_world (with_files (fs_after_save q (files (qworld st))) (qworld st)) st)
        else st
      else check_and_run srcPath st
  end.

(** The callback of the timer of lines 129-137, five seconds later: an
    unlink that fails is ignored, and the file stays. *)
Definition cleanup_output (tempOutputFile : jsstring) (w : World) : World :=
  match files w !! tempOutputFile with
  | Some _ =>
      match unlink_error env tempOutputFile with
      | Some e => w
      | None => add_event (UnlinkSync tempOutputFile)
                  (with_files (delete tempOutputFile (files w)) w)
      end
  | None => w
  end.

End QuickRun.

(** ** A concrete host

    POSIX conventions on paths that are already normalised, and the
    upper-casing of ASCII letters; the platform name is a parameter. It
    serves the concrete runs below. *)

Module DemoHost.

Definition slash : N := 47.
Definition dot : N := 46.

(** The part after the last occurrence of [c], or the whole string. *)
Fixpoint after_last (c : N) (s : jsstring) : jsstring :=
  match s with
  | [] => []
  | x :: s' =>
      if existsb (N.eqb c) s' then after_last c s'
      else if (x =? c)%N then s' else s
  end.

(** The part before the last occurrence of [c], if there is one. *)
Fixpoint before_last (c : N) (s : jsstring) : option jsstring :=
  match s with
  | [] => None
  | x :: s' =>
      match before_last c s' with
      | Some b => Some (x :: b)
      | None => if (x =? c)%N then Some [] else None
      end
  end.

Definition basename (p : jsstring) : jsstring := after_last slash p.

Definition dirname (p : jsstring) : jsstring :=
  match before_last slash p with
  | Some [] => lit "/"
  | Some d => d
  | None => lit "."
  end.

Definition extname (p : jsstring) : jsstring :=
  match before_last dot (basename p) with
  | Some [] | None => []
  | Some _ => dot :: after_last dot (basename p)
  end.

Definition parse_name (p : jsstring) : jsstring :=
  take (length (basename p) - length (extname p)) (basename p).

Definition basename_ext (p ext : jsstring) : jsstring :=
  if endsWith ext (basename p) && negb (str_eqb ext (basename p))
  then take (length (basename p) - length ext) (basename p)
  else basename p.

Definition join (a b : jsstring) : jsstring := a ++ slash :: b.

Definition upper (s : jsstring) : jsstring :=
  map (fun c => if (97 <=? c)%N && (c <=? 122)%N then (c - 32)%N else c) s.

(** UTF-8 of a string of UTF-16 code units. *)
Fixpoint utf8 (s : jsstring) : list N :=
  match s with
  | [] => []
  | c :: s' =>
      (if c <? 128 then c :: utf8 s'
       else if c <? 2048 then (192 + c / 64) :: (128 + c mod 64) :: utf8 s'
       else if (55296 <=? c) && (c <? 56320) then
         match s' with
         | d :: s'' =>
             if (56320 <=? d) && (d <? 57344) then
               let u := 65536 + (c - 55296) * 1024 + (d - 56320) in
               (240 + u / 262144) :: (128 + (u / 4096) mod 64)
               :: (128 + (u / 64) mod 64) :: (128 + u mod 64) :: utf8 s''
             else 239 :: 191 :: 189 :: utf8 s'
         | [] => [239; 191; 189]
         end
       else if (56320 <=? c) && (c <? 57344) then 239 :: 191 :: 189 :: utf8 s'
       else (224 + c / 4096) :: (128 + (c / 64) mod 64) :: (128 + c mod 64) :: utf8 s')%N
  end.

Definition host (platform : jsstring) : Host :=
  {| os_tmpdir := lit "/tmp";
     os_platform := platform;
     path_join := join;
     path_basename := basename;
     path_basename_ext := basename_ext;
     path_dirname := dirname;
     path_extname := extname;
     path_parse_name := parse_name;
     utf8_encode := utf8;
     toUpperCase := upper;
     path_join_nonempty :=
       ltac:(intros a b; unfold join; destruct a; discriminate) |}.

(** A server on [http://localhost:3000] that answers [response]; the clock
    reads 1000, 1001, ...; nothing else touches the file system, and no
    write or unlink is refused. *)
Definition env_with (url : option jsstring) (response : fetch_outcome) : Env :=
  {| cloudCompilerApiUrl := url;
     clock := fun n => 1000 + Z.of_nat n;
     random36 := lit "0.4fzyo82mvyr";
     fetch_result := response;
     fs_while_fetching := fun fs => fs;
     fs_while_reading_body := fun fs => fs;
     write_error := fun _ => None;
     unlink_error := fun _ => None;
     activeTextEditor := None;
     onlineJudgeEnv := false |}.

Definition localhost : option jsstring := Some (lit "http://localhost:3000").

Definition json_response (st : Z) (body : value) : fetch_outcome :=
  FetchResolves {| status := st; body_text := inl []; body_json := inl body |}.


Definition python : Language :=
  {| name := lit "python"; compiler := lit "python3"; args := []; skipCompile := true |}.

Definition cpp : Language :=
  {| name := lit "cpp"; compiler := lit "g++"; args := []; skipCompile := false |}.

Definition ruby : Language :=
  {| name := lit "ruby"; compiler := lit "ruby"; args := []; skipCompile := true |}.

(** A disk holding one source file. *)
Definition disk (path : jsstring) : World :=
  {| files := {[ path := utf8 (lit "print(42)") ]}; events := []; clock_reads := 0 |}.

Definition empty_disk : World :=
  {| files := ∅; events := []; clock_reads := 0 |}.

(** [env] on a system that refuses the writes and unlinks that [write]
    and [unlink] name. *)
Definition refusing (env : Env) (write unlink : jsstring -> option thrown) : Env :=
  {| cloudCompilerApiUrl := cloudCompilerApiUrl env;
     clock := clock env;
     random36 := random36 env;
     fetch_result := fetch_result env;
     fs_while_fetching := fs_while_fetching env;
     fs_while_reading_body := fs_while_reading_body env;
     write_error := write;
     unlink_error := unlink;
     activeTextEditor := activeTextEditor env;
     onlineJudgeEnv := onlineJudgeEnv env |}.

Definition eacces : thrown :=
  ThrownError (lit "Error") (lit "EACCES: permission denied, open").

Definition ebusy : thrown :=
  ThrownError (lit "Error") (lit "EBUSY: resource busy or locked, unlink").

End DemoHost.

(** * Vocabulary of the properties, and concrete runs *)

Section ApiClientFacts.
Context `{H : Host} (env : Env).

(** The path of the temporary input file named at time [now]. *)
Definition temp_path (now : Z) : jsstring :=
  path_join os_tmpdir
    (lit "cph_input_" ++ of_int now ++ lit "_"
     ++ substring 2 11 (random36 env) ++ lit ".txt").

(** The events a call added to the log. *)
Definition new_events (w w' : World) : list event :=
  drop (length (events w)) (events w').

Definition has_input_part (body : FormData) : Prop :=
  exists f, (lit "input", f) ∈ body.

(** The temporary directory takes the input file of a call made in [w]
    (the file is named after the second reading of the clock). *)
Definition temp_writable (w : World) : Prop :=
  write_error env (temp_path (clock env (S (clock_reads w)))) = None.

(** The request can be built: an endpoint is configured, the language has
    a tag, the source file is on disk, and the temporary directory takes
    the input file. *)
Definition request_ready (srcPath : jsstring) (language : Language) (w : World) : Prop :=
  url_blank (cloudCompilerApiUrl env) = false
  /\ is_Some (mapLanguageToApi (name language))
  /\ is_Some (files w !! srcPath)
  /\ temp_writable w.

End ApiClientFacts.

(** [returns_only P m]: every value [m] returns (rather than throws)
    satisfies [P]. *)
Definition returns_only {A} (P : A -> Prop) (m : M A) : Prop :=
  forall f a f', m f = (inl a, f') -> P a.

(** The shape of a remote result: an exit code, no signal, no timeout. *)
Definition remote_shape (r : Run) : Prop :=
  is_Some (code r) /\ signal r = None /\ timeOut r = false.

Module Runs.
Import DemoHost.

Definition linux : Host := host (lit "linux").

Definition src : jsstring := lit "/w/a.py".

Definition ok_body : value :=
  VObj [(lit "success", VBool true); (lit "output", VStr (lit "42"))].


Definition ok_env : Env := env_with localhost (json_response 200 ok_body).

Definition ok_call :=
  Eval vm_compute in @compileAndRunViaApi linux ok_env src (lit "1 2") python (disk src).


(** The transport fails with a message that carries the code of the
    error. (The [fetch] of Node.js itself rejects with the message
    [fetch failed] and keeps the code in [cause]; a transport that
    rejects with the system's message is what the test of lines 190-195
    recognises.) *)
Definition refused_env : Env :=
  env_with localhost
    (FetchRejects (ThrownError (lit "TypeError")
                     (lit "connect ECONNREFUSED 127.0.0.1:3000"))).

(** The successful run on a system whose temporary directory cannot be
    written, and on one where the temporary file cannot be removed (it is
    held open by another program). *)
Definition readonly_tmp_env : Env := refusing ok_env (fun _ => Some eacces) (fun _ => None).

Definition busy_tmp_env : Env := refusing ok_env (fun _ => None) (fun _ => Some ebusy).

Definition busy_call :=
  Eval vm_compute in @compileAndRunViaApi linux busy_tmp_env src (lit "1 2") python (disk src).

End Runs.


(** C8 as it is worded: the temporary file is written, and the request
    carries the [input] part, exactly when the payload is not empty. *)
Definition claim_input_part_iff_nonempty : Prop :=
  forall (H : Host) (env : Env) (srcPath input : jsstring) (language : Language)
         (w : World),
    request_ready env srcPath language w ->
    let evs := new_events w (snd (compileAndRunViaApi env srcPath input language w)) in
    ((exists p, WriteFileSync p ∈ evs) <-> input <> [])
    /\ (forall endpoint body, Fetch endpoint body ∈ evs ->
          (has_input_part body <-> input <> [])).

(** C7 as it is worded: a temporary file that a call wrote is not on disk
    when the call settles, on every path. *)
Definition claim_temp_file_always_removed : Prop :=
  forall (H : Host) (env : Env) (srcPath input : jsstring) (language : Language)
         (w : World) (p : jsstring),
    WriteFileSync p ∈ new_events w (snd (compileAndRunViaApi env srcPath input language w)) ->
    files (snd (compileAndRunViaApi env srcPath input language w)) !! p = None.

Module RunFacts.
Import DemoHost Runs.

Definition ok_run : Run :=
  {| stdout := VStr (lit "42"); stderr := VStr []; code := Some 0;
     signal := None; time := 2; timeOut := false |}.



End RunFacts.

(** C1 as it is worded, first part: with an endpoint configured and a
    language that has a tag, the call reaches [compileAndRunViaApi]. *)
Definition claim_mapped_language_reaches_api : Prop :=
  forall (H : Host) (env : Env) (language : Language) (binPath input : jsstring)
         (w : World),
    url_blank (cloudCompilerApiUrl env) = false ->
    is_Some (mapLanguageToApi (name language)) ->
    exists srcPath outcome,
      (runTestCase env language binPath input w).1.1 = ViaApi srcPath outcome.

(** C9 as it is worded: the descriptor is the same after the call. *)
Definition claim_descriptor_unchanged : Prop :=
  forall (H : Host) (env : Env) (language : Language) (binPath input : jsstring)
         (w : World),
    (runTestCase env language binPath input w).1.2 = language.

Definition no_source_result : Run :=
  {| stdout := VStr [];
     stderr := VStr (lit "Could not determine source file path for cloud compilation");
     code := Some 1; signal := None; time := 0; timeOut := false |}.

Module DispatchRuns.
Import DemoHost.

Definition win32 : Host := host (lit "win32").

Definition no_api : Env := env_with None (FetchRejects ThrownOther).

Definition api : Env := env_with localhost (FetchRejects ThrownOther).

End DispatchRuns.

(** How many of the three marks a result carries: an exit code, a signal,
    the timeout flag. *)
Definition causes (r : Run) : nat :=
  (match code r with Some _ => 1 | None => 0 end
   + match signal r with Some _ => 1 | None => 0 end
   + if timeOut r then 1 else 0)%nat.

(** C5 as it is worded, on the results of local calls. *)
Definition claim_one_cause : Prop :=
  forall (tr : list label) (s : System) (p : nat) (r : Run),
    run tr initial = Some s -> outcome_of p s = Some r ->
    causes r = 1%nat /\ (code r = None -> signal r = None -> timeOut r = true).

Definition signals_of (p : nat) (s : System) : list jsstring :=
  match procs s !! p with
  | Some pr => signals_sent pr
  | None => []
  end.

Definition timed_out (p : nat) (s : System) : bool :=
  match calls s !! p with
  | Some c => timeOut (result c)
  | None => false
  end.




(** C6 as it is worded: the registry holds exactly the running processes. *)
Definition registry_exact (s : System) : Prop :=
  forall p, p ∈ runningBinaries s <-> is_running p s = true.

Module LocalRuns.

Definition sigterm : jsstring := lit "SIGTERM".

(** A process that outlives its timer and is then ended by the signal. *)
Definition timeout_trace : list label :=
  [Start 1 true (lit "python3") (lit "1 2") 1000;
   StdoutData 1 (lit "4");
   KillerFires 1;
   Exit 1 (ExitSignal sigterm) 4000].

(** A launcher that is not installed. *)
Definition spawn_error_trace : list label :=
  [Start 1 false (lit "python3") (lit "1 2") 1000;
   Error 1 (lit "Error") 1001].

(** A process that does not end on [SIGTERM]. *)
Definition stubborn_trace : list label :=
  [Start 1 true (lit "python3") (lit "1 2") 1000;
   KillerFires 1].

(** Two overlapping calls; the first process exits first. *)
Definition overlap_trace : list label :=
  [Start 1 true (lit "python3") (lit "") 1000;
   Start 2 true (lit "python3") (lit "") 1001;
   Exit 1 (ExitCode 0) 1002].

Definition stubborn : System :=
  Eval vm_compute in default initial (run stubborn_trace initial).

Definition timed_out_system : System :=
  Eval vm_compute in default initial (run timeout_trace initial).

Definition timed_out_result : Run :=
  {| stdout := VStr (lit "4"); stderr := VStr []; code := None;
     signal := Some sigterm; time := 3000; timeOut := true |}.

Definition started : System :=
  Eval vm_compute in
    default initial (run [Start 1 true (lit "python3") (lit "1 2") 1000] initial).


End LocalRuns.

Definition is_resolved (p : nat) (s : System) : bool :=
  match calls s !! p with
  | Some c => resolved c
  | None => false
  end.


Definition signals_in (ps : gmap nat Proc) (q : nat) : list jsstring :=
  match ps !! q with Some pr => signals_sent pr | None => [] end.

(** ** Vocabulary of the further properties *)

(** The tags the endpoint accepts. *)
Definition api_tags : list jsstring :=
  [lit "c"; lit "cpp"; lit "python"; lit "java"; lit "javascript";
   lit "rust"; lit "go"; lit "csharp"].

(** The events of a call that the busy indicator and the server see. *)
Definition is_traffic (e : event) : bool :=
  match e with
  | JudgeViewMessage _ | Fetch _ _ => true
  | _ => false
  end.

Definition is_request (e : event) : bool :=
  match e with
  | Fetch _ _ => true
  | _ => false
  end.

(** The bytes the process of [p] wrote on its standard output, or on its
    standard error, in the order of arrival. *)
Fixpoint chunks_out (p : nat) (tr : list label) : jsstring :=
  match tr with
  | [] => []
  | StdoutData q data :: tr' =>
      if bool_decide (q = p) then data ++ chunks_out p tr' else chunks_out p tr'
  | _ :: tr' => chunks_out p tr'
  end.

Fixpoint chunks_err (p : nat) (tr : list label) : jsstring :=
  match tr with
  | [] => []
  | StderrData q data :: tr' =>
      if bool_decide (q = p) then data ++ chunks_err p tr' else chunks_err p tr'
  | _ :: tr' => chunks_err p tr'
  end.

Definition is_killer (p : nat) (l : label) : bool :=
  match l with
  | KillerFires q => bool_decide (q = p)
  | _ => false
  end.

(** The [exit] or [error] event of [p]. *)
Definition is_end (p : nat) (l : label) : bool :=
  match l with
  | Exit q _ _ | Error q _ _ => bool_decide (q = p)
  | _ => false
  end.

(** The call of [p] begins with a [spawn] that throws. *)
Definition is_thrown (p : nat) (l : label) : bool :=
  match l with
  | SpawnThrows q _ => bool_decide (q = p)
  | _ => false
  end.

(** The last [exit] or [error] event of [p] in a run. *)
Definition last_end (p : nat) (tr : list label) : option label :=
  foldl (fun found l => if is_end p l then Some l else found) None tr.

(** What an [exit] or [error] event leaves in the fields [code] and
    [signal] of the result. *)
Definition end_marks (l : label) : option (option Z * option jsstring) :=
  match l with
  | Exit _ (ExitCode z) _ => Some (Some z, None)
  | Exit _ (ExitSignal g) _ => Some (None, Some g)
  | Error _ err_name _ => Some (Some 1, Some err_name)
  | _ => None
  end.


(** The process an event belongs to; [killRunning] belongs to none. *)
Definition label_pid (l : label) : option nat :=
  match l with
  | Start p _ _ _ _ | SpawnThrows p _ | StdoutData p _ | StderrData p _
  | KillerFires p | SpawnTimeout p | Exit p _ _ | Error p _ _ => Some p
  | KillRunning => None
  end.

(** The timer of [p] was cleared or has fired. *)
Definition timer_spent (p : nat) (s : System) : Prop :=
  exists c, calls s !! p = Some c /\ killer_pending c = false.

Definition registry_sound (s : System) : Prop :=
  NoDup (runningBinaries s)
  /\ forall p, p ∈ runningBinaries s -> is_Some (calls s !! p).

(** The process [q] of the table [ps] is running. *)
Definition running_in (ps : gmap nat Proc) (q : nat) : bool :=
  match ps !! q with
  | Some pr => match pstate pr with Running => true | _ => false end
  | None => false
  end.

Section QuickRunVocabulary.
Context `{H : Host} (env : Env) (q : QuickEnv).

(** The checks of [quickRun] that stand before the request. *)
Definition quick_checks_pass (st : QuickState) (document : TextDocument)
    (language : Language) : Prop :=
  activeTextEditor env = Some document
  /\ (isUntitled document = true -> saveChoice q = Some (lit "Save and Run"))
  /\ is_Some ((if isUntitled document then fs_after_save q (files (qworld st))
               else files (qworld st))
              !! path_join (path_dirname (fileName document)) (lit "input.txt"))
  /\ getLanguage q (fileName document) = inl language
  /\ shouldUseCloudApi env language = true.

End QuickRunVocabulary.

Module MoreRuns.
Import DemoHost Runs.

(** A path on which there is no file. *)
Definition missing : jsstring := lit "/w/b.py".

(** A missing file whose name has the word the client looks for. *)
Definition missing_timeout : jsstring := lit "/w/timeout.py".

Definition refused : thrown :=
  ThrownError (lit "TypeError") (lit "connect ECONNREFUSED 127.0.0.1:3000").

(** A 2xx answer that is a page of a proxy, not JSON. *)
Definition html : Response :=
  {| status := 200; body_text := inl (lit "<html>");
     body_json := inr (ThrownError (lit "SyntaxError") (lit "Unexpected token")) |}.

Definition html_env : Env := env_with localhost (FetchResolves html).

(** A binary built from [/w/a.cc]. *)
Definition binary : jsstring := lit "/w/a.bin".

Definition cc_disk : World :=
  {| files := {[ lit "/w/a.cc" := utf8 (lit "int main(){}") ]};
     events := []; clock_reads := 0 |}.

(** A second call started while the first is pending. *)
Definition second_start : list label :=
  [Start 2 true (lit "python3") (lit "") 1001; StdoutData 2 (lit "7"); KillRunning].

Definition two_started : System :=
  Eval vm_compute in default initial (run second_start LocalRuns.started).

(** A quick run on [/w/a.py] with [/w/input.txt] beside it; text and bytes
    agree on the characters below 128 used here. *)
Definition quick_env : QuickEnv :=
  {| saveChoice := None;
     fs_after_save := fun fs => fs;
     getLanguage := fun p =>
       if endsWith (lit ".py") p then inl python
       else inr (ThrownError (lit "Error") (lit "Unsupported file type"));
     utf8_decode := fun bytes => bytes;
     text_of_value := fun _ => lit "[object Object]";
     text_of_thrown := fun _ => lit "Error";
     terminal_open := false |}.

(** The file next to the source cannot be written, or cannot be removed. *)
Definition no_output_env : Env :=
  refusing ok_env
    (fun p => if endsWith (lit ".cph_output_temp.txt") p then Some eacces else None)
    (fun _ => None).

Definition kept_output_env : Env :=
  refusing ok_env (fun _ => None)
    (fun p => if endsWith (lit ".cph_output_temp.txt") p then Some ebusy else None).

(** A [spawn] that throws, and the timer of the call firing afterwards. *)
Definition thrown_trace : list label :=
  [SpawnThrows 1 (lit "python3"); KillerFires 1].

(** A process that gets [SIGTERM] from the timer of the call and from the
    timer of the [timeout] option. *)
Definition two_timers_trace : list label :=
  [Start 1 true (lit "python3") (lit "1 2") 1000; KillerFires 1; SpawnTimeout 1].

Definition two_timers : System :=
  Eval vm_compute in default initial (run two_timers_trace initial).

Definition quick_start : QuickState :=
  {| qworld := {| files := {[ src := utf8 (lit "print(42)") ]}; events := [];
                  clock_reads := 0 |};
     informations := []; terminal := [] |}.

End MoreRuns.

(** * Properties of the remote execution client *)

Lemma str_eqb_true (s t : jsstring) : str_eqb s t = true <-> s = t.
Proof. unfold str_eqb. apply bool_decide_eq_true. Qed.

Lemma str_eqb_false (s t : jsstring) : str_eqb s t = false <-> s <> t.
Proof. unfold str_eqb. apply bool_decide_eq_false. Qed.

(** The guard of line 85 is the test that the payload has a character that
    is not white space. *)
Lemma input_guard (input : jsstring) :
  negb (is_empty input) && negb (str_eqb (trim input) []) = negb (str_eqb (trim input) []).
Proof.
  destruct input as [|c s]; [reflexivity|]. reflexivity.
Qed.

Lemma mapped_tag (l : jsstring) (t : jsstring) :
  mapLanguageToApi l = Some t -> is_empty t = false.
Proof.
  unfold mapLanguageToApi.
  repeat match goal with
         | |- context [if ?b then _ else _] => destruct b
         end; intros [= <-]; reflexivity.
Qed.

Lemma tag_missing_mapped (l : jsstring) :
  tag_missing (mapLanguageToApi l) = bool_decide (mapLanguageToApi l = None).
Proof.
  destruct (mapLanguageToApi l) as [t|] eqn:E; simpl.
  - apply mapped_tag in E. rewrite E. reflexivity.
  - reflexivity.
Qed.

Ltac mrun :=
  cbv [bind ret throw try_catch try_finally emit get_world put_world
       set_files set_inputFilePath get_inputFilePath date_now existsSync
       readFileSync writeFileSync unlinkSync await_body get_prop fetch];
  cbn [world inputFilePath files events clock_reads fst snd negb andb orb].

Section ApiClientSteps.
Context `{H : Host} (env : Env).

Lemma create_input_file_blank (input : jsstring) (f : Frame) :
  trim input = [] -> create_input_file env input f = (inl tt, f).
Proof.
  intros E. unfold create_input_file. rewrite input_guard, E. reflexivity.
Qed.

Lemma create_input_file_payload (input : jsstring) (w : World) (o : option jsstring) :
  trim input <> [] ->
  write_error env (temp_path env (clock env (clock_reads w))) = None ->
  create_input_file env input {| world := w; inputFilePath := o |}
  = (inl tt,
     {| world := {| files := <[temp_path env (clock env (clock_reads w)) := utf8_encode input]> (files w);
                    events := events w ++ [WriteFileSync (temp_path env (clock env (clock_reads w)))];
                    clock_reads := S (clock_reads w) |};
        inputFilePath := Some (temp_path env (clock env (clock_reads w))) |}).
Proof.
  intros E Hw. unfold create_input_file. rewrite input_guard.
  apply str_eqb_false in E. rewrite E. mrun.
  change (path_join os_tmpdir _) with (temp_path env (clock env (clock_reads w))).
  rewrite Hw. reflexivity.
Qed.

Lemma build_form_no_source (srcPath tag : jsstring) (f : Frame) :
  files (world f) !! srcPath = None ->
  build_form srcPath tag f = (inr (enoent (lit "open") srcPath), f).
Proof.
  intros E. unfold build_form. mrun. rewrite E. reflexivity.
Qed.

Lemma build_form_plain (srcPath tag : jsstring) (w : World) (c : list N) :
  files w !! srcPath = Some c ->
  build_form srcPath tag {| world := w; inputFilePath := None |}
  = (inl [(lit "lang", PString tag); (lit "code", PFile (path_basename srcPath) c)],
     {| world := w; inputFilePath := None |}).
Proof.
  intros E. unfold build_form. mrun. rewrite E. reflexivity.
Qed.

Lemma build_form_with_input (srcPath tag p : jsstring) (w : World) (c ci : list N) :
  files w !! srcPath = Some c -> files w !! p = Some ci -> p <> [] ->
  build_form srcPath tag {| world := w; inputFilePath := Some p |}
  = (inl [(lit "lang", PString tag); (lit "code", PFile (path_basename srcPath) c);
          (lit "input", PFile (path_basename p) ci)],
     {| world := w; inputFilePath := Some p |}).
Proof.
  intros E Ei Hp. unfold build_form. mrun. rewrite E. mrun. rewrite Ei.
  destruct p; [done|]. cbn. rewrite Ei. reflexivity.
Qed.

End ApiClientSteps.

(** ** What the client can return *)

Lemma returns_only_ret {A} (P : A -> Prop) (a : A) : P a -> returns_only P (ret a).
Proof. intros HP f a' f' [= <- _]. exact HP. Qed.

Lemma returns_only_throw {A} (P : A -> Prop) (e : thrown) : returns_only P (throw e).
Proof. intros f a f'. discriminate. Qed.

Lemma returns_only_bind {A B} (P : B -> Prop) (m : M A) (k : A -> M B) :
  (forall a, returns_only P (k a)) -> returns_only P (bind m k).
Proof.
  intros Hk f b f'. unfold bind.
  destruct (m f) as [[a|e] f1]; [apply Hk | discriminate].
Qed.

Lemma returns_only_try_catch {A} (P : A -> Prop) (m : M A) (h : thrown -> M A) :
  returns_only P m -> (forall e, returns_only P (h e)) ->
  returns_only P (try_catch m h).
Proof.
  intros Hm Hh f a f'. unfold try_catch.
  destruct (m f) as [[a0|e] f1] eqn:E.
  - intros [= <- _]. exact (Hm _ _ _ E).
  - apply Hh.
Qed.

Lemma returns_only_try_finally {A} (P : A -> Prop) (m : M A) (c : M unit) :
  returns_only P m -> returns_only P (try_finally m c).
Proof.
  intros Hm f a f'. unfold try_finally.
  destruct (m f) as [r f1] eqn:E. destruct (c f1) as [[[]|e] f2].
  - intros [= -> _]. exact (Hm _ _ _ E).
  - discriminate.
Qed.

Section ApiClientResults.
Context `{H : Host} (env : Env).

Lemma try_block_shape (srcPath input apiUrl tag : jsstring) (begin : Z) :
  returns_only remote_shape (try_block env srcPath input apiUrl tag begin).
Proof.
  unfold try_block.
  repeat (apply returns_only_bind; intros).
  destruct (negb (response_ok _)).
  - apply returns_only_bind; intros. apply returns_only_ret.
    repeat split; eauto.
  - repeat (apply returns_only_bind; intros).
    destruct (truthy_opt _);
      repeat (apply returns_only_bind; intros);
      apply returns_only_ret; repeat split; eauto.
Qed.

Lemma catch_block_shape (apiUrl : jsstring) (begin : Z) (e : thrown) :
  returns_only remote_shape (catch_block env apiUrl begin e).
Proof.
  unfold catch_block.
  repeat (apply returns_only_bind; intros).
  apply returns_only_ret. repeat split; eauto.
Qed.

Lemma body_shape (srcPath input : jsstring) (language : Language) :
  returns_only remote_shape (compileAndRunViaApi_body env srcPath input language).
Proof.
  unfold compileAndRunViaApi_body.
  destruct (url_blank _); [apply returns_only_throw|].
  destruct (tag_missing _).
  - apply returns_only_bind; intros. apply returns_only_throw.
  - repeat (apply returns_only_bind; intros).
    apply returns_only_try_finally, returns_only_try_catch.
    + apply try_block_shape.
    + apply catch_block_shape.
Qed.

Lemma compileAndRunViaApi_shape (srcPath input : jsstring) (language : Language)
    (w w' : World) (r : Run) :
  compileAndRunViaApi env srcPath input language w = (inl r, w') ->
  remote_shape r.
Proof.
  unfold compileAndRunViaApi.
  destruct (compileAndRunViaApi_body _ _ _ _ _) as [o f] eqn:E.
  intros [= -> _]. exact (body_shape _ _ _ _ _ _ E).
Qed.

(** C10. Every result that [compileAndRunViaApi] returns, on whichever
    path (2xx with success, 2xx with failure, non-2xx response, caught
    exception), has [signal] equal to [null] and [timeOut] equal to
    [false]. *)
Theorem api_result_no_signal_no_timeout (srcPath input : jsstring)
    (language : Language) (w w' : World) (r : Run) :
  compileAndRunViaApi env srcPath input language w = (inl r, w') ->
  signal r = None /\ timeOut r = false.
Proof.
  intros E. apply compileAndRunViaApi_shape in E. destruct E as (_ & ? & ?). done.
Qed.

End ApiClientResults.

Ltac api_unfold :=
  unfold compileAndRunViaApi, compileAndRunViaApi_body, try_block, catch_block,
    finally_block, create_input_file, build_form;
  mrun.

Lemma path_join_is_empty `{H : Host} (a b : jsstring) :
  is_empty (path_join a b) = false.
Proof. pose proof (path_join_nonempty a b). destruct (path_join a b); done. Qed.

Lemma exists_Some {A} (x : A) : bool_decide (is_Some (Some x)) = true.
Proof. reflexivity. Qed.

Lemma exists_None {A} : bool_decide (is_Some (@None A)) = false.
Proof. reflexivity. Qed.

Ltac api_norm :=
  rewrite ?exists_Some, ?exists_None;
  mrun.

(** One step of case analysis on the outermost undetermined test. *)
Ltac break_match :=
  match goal with
  | |- context [match ?x with _ => _ end] =>
      first [ is_var x; destruct x
            | lazymatch x with
              | context [match _ with _ => _ end] => fail
              | _ => destruct x eqn:?
              end ];
      api_norm
  | |- context [if ?x then _ else _] =>
      lazymatch x with
      | context [if _ then _ else _] => fail
      | context [match _ with _ => _ end] => fail
      | _ => destruct x eqn:?
      end; api_norm
  end.

(** Facts recorded by the case analysis that cannot hold. *)
Ltac leaf_absurd :=
  repeat match goal with
         | E : _ = _ |- _ =>
             progress rewrite ?lookup_insert_eq, ?lookup_delete_eq, ?path_join_is_empty,
               ?exists_Some, ?exists_None in E;
             cbn [negb andb orb] in E
         end;
  try congruence.

(** A source file that was on disk is still there after the temporary
    file was written. *)
Ltac source_present :=
  match goal with
  | Hs : is_Some (?fs !! ?p), E : <[_ := _]> ?fs !! ?p = None |- _ =>
      apply lookup_insert_None in E; destruct E as [E _];
      rewrite E in Hs; destruct Hs; discriminate
  | Hs : is_Some (?fs !! ?p), E : ?fs !! ?p = None |- _ =>
      rewrite E in Hs; destruct Hs; discriminate
  | Hs : is_Some None |- _ => destruct Hs; discriminate
  end.

Section ApiClientResponses.
Context `{H : Host} (env : Env).






End ApiClientResponses.

(** ** The temporary input file *)

Ltac events_norm :=
  unfold new_events; cbn [events files];
  repeat rewrite <- (app_assoc (events _));
  rewrite ?drop_app_length, ?drop_all.

Ltac in_list H :=
  repeat (apply elem_of_cons in H as [H|H]; [try discriminate|]);
  try (apply elem_of_nil in H; destruct H).

Ltac gone :=
  match goal with
  | E : bool_decide (is_Some ?x) = false |- ?x = None =>
      apply bool_decide_eq_false in E; apply eq_None_not_Some; exact E
  end.

Section TempFile.
Context `{H : Host} (env : Env).

(** Removal is guarded: when the file is no longer there, the [finally]
    block does nothing and does not throw. *)
Lemma finally_block_gone (f : Frame) (p : jsstring) :
  inputFilePath f = Some p -> files (world f) !! p = None ->
  finally_block env f = (inl tt, f).
Proof.
  intros Hp Hgone. unfold finally_block. mrun. rewrite Hp. mrun.
  rewrite Hgone. rewrite andb_false_r. reflexivity.
Qed.

Lemma finally_block_total (f : Frame) : exists f', finally_block env f = (inl tt, f').
Proof.
  unfold finally_block. mrun.
  destruct (inputFilePath f) as [p|]; mrun; [|eauto].
  destruct (files (world f) !! p) eqn:E; api_norm.
  - destruct (is_empty p); mrun; [eauto|]. rewrite E. mrun.
    destruct (unlink_error env p); mrun; eauto.
  - rewrite andb_false_r. eauto.
Qed.

(** C7, as the code has it. The cleanup step runs on every path and does
    not throw, whatever the unlink does. A temporary file the call wrote
    is not on disk when the call settles, unless the system refuses to
    unlink it: the refusal is caught and logged, nothing is removed, and
    without another task touching the disk the file stays, with the
    payload in it. Past the two precondition checks the call always
    returns a result. The cleanup step, run when the file is already gone,
    changes nothing. *)
Theorem api_temp_file_removed (srcPath input : jsstring) (language : Language)
    (w : World) :
  (forall p, WriteFileSync p ∈ new_events w (snd (compileAndRunViaApi env srcPath input language w)) ->
             match unlink_error env p return Prop with
             | None => files (snd (compileAndRunViaApi env srcPath input language w)) !! p = None
             | Some _ =>
                 (UnlinkSync p ∉ new_events w (snd (compileAndRunViaApi env srcPath input language w)))
                 /\ ((forall fs, fs_while_fetching env fs = fs) ->
                     (forall fs, fs_while_reading_body env fs = fs) ->
                     files (snd (compileAndRunViaApi env srcPath input language w)) !! p
                     = Some (utf8_encode input))
             end)
  /\ (url_blank (cloudCompilerApiUrl env) = false ->
      is_Some (mapLanguageToApi (name language)) ->
      exists r, fst (compileAndRunViaApi env srcPath input language w) = inl r)
  /\ (forall f, exists f', finally_block env f = (inl tt, f'))
  /\ (forall f p, inputFilePath f = Some p -> files (world f) !! p = None ->
                  finally_block env f = (inl tt, f)).
Proof.
  split; [|split; [|split]].
  - api_unfold. repeat break_match.
    all: leaf_absurd.
    all: events_norm.
    all: intros p Hp; in_list Hp.
    all: injection Hp as ->.
    all: repeat match goal with
           | E : unlink_error env ?a = ?v |- context [unlink_error env ?b] =>
               replace (unlink_error env b) with v by (symmetry; exact E)
           end.
    all: try match goal with
             | |- context [unlink_error env ?p] => destruct (unlink_error env p)
             end.
    all: try first [apply lookup_delete_eq | assumption | gone].
    all: (split; [rewrite <- ?app_assoc; cbn [app]; intros Hin; in_list Hin
                 | intros Hf Hb; rewrite ?Hb, ?Hf; apply lookup_insert_eq]).
  - intros Hu [tag Ht]. api_unfold. rewrite Hu, Ht. cbn [tag_missing].
    rewrite (mapped_tag _ _ Ht). api_norm.
    repeat break_match.
    all: leaf_absurd.
    all: eauto.
  - apply finally_block_total.
  - apply finally_block_gone.
Qed.

End TempFile.

Lemma input_not_lang : lit "input" <> lit "lang".
Proof. discriminate. Qed.

Lemma input_not_code : lit "input" <> lit "code".
Proof. discriminate. Qed.

Ltac part_absent H :=
  repeat (apply elem_of_cons in H as [H|H]; [pose proof (f_equal fst H); cbn [fst] in *; congruence|]);
  apply elem_of_nil in H; destruct H.

Ltac part_names :=
  pose proof input_not_lang; pose proof input_not_code.

Section InputPart.
Context `{H : Host} (env : Env).

Lemma payload_guard (input : jsstring) :
  negb (is_empty input) && negb (str_eqb (trim input) []) = true <-> trim input <> [].
Proof.
  rewrite input_guard, negb_true_iff. apply str_eqb_false.
Qed.

Lemma no_payload_guard (input : jsstring) :
  negb (is_empty input) && negb (str_eqb (trim input) []) = false <-> trim input = [].
Proof.
  rewrite input_guard, negb_false_iff. apply str_eqb_true.
Qed.

(** C8, as the code has it. For a call that passes the two precondition
    checks: a temporary file is written if and only if the payload has a
    character that is not white space and the system takes the write; a
    request that is sent carries an [input] part exactly when the payload
    has such a character; that part is the file part named after the
    temporary file, holding the encoded payload; and when the system
    refuses the write, no request is sent and the call returns exit code 1
    with the explained message of the refusal. *)
Theorem api_input_part_iff_payload (srcPath input : jsstring) (language : Language)
    (w : World) :
  url_blank (cloudCompilerApiUrl env) = false ->
  is_Some (mapLanguageToApi (name language)) ->
  let evs := new_events w (snd (compileAndRunViaApi env srcPath input language w)) in
  let tmp := temp_path env (clock env (S (clock_reads w))) in
  ((exists p, WriteFileSync p ∈ evs) <-> trim input <> [] /\ write_error env tmp = None)
  /\ (forall endpoint body, Fetch endpoint body ∈ evs ->
        (has_input_part body <-> trim input <> []))
  /\ (forall endpoint body f, Fetch endpoint body ∈ evs -> (lit "input", f) ∈ body ->
        exists p, WriteFileSync p ∈ evs /\ f = PFile (path_basename p) (utf8_encode input))
  /\ (forall e, trim input <> [] -> write_error env tmp = Some e ->
        (forall endpoint body, Fetch endpoint body ∉ evs)
        /\ exists r,
             fst (compileAndRunViaApi env srcPath input language w) = inl r
             /\ code r = Some 1
             /\ stderr r = VStr (explain (default [] (cloudCompilerApiUrl env))
                                   (message_of e))).
Proof.
  intros Hu [tag Ht]. cbv zeta. unfold temp_path.
  api_unfold. rewrite Hu, Ht. cbn [tag_missing].
  rewrite (mapped_tag _ _ Ht). api_norm.
  repeat break_match.
  all: leaf_absurd.
  all: events_norm.
  all: repeat match goal with
         | E : _ && _ = true |- _ => apply payload_guard in E
         | E : _ && _ = false |- _ => apply no_payload_guard in E
         end.
  all: repeat match goal with
         | E : Some _ = Some _ |- _ => injection E as <-
         end.
  all: rewrite <- ?app_assoc; cbn [app]; unfold has_input_part; part_names.
  all: split; [|split; [|split]].
  all: lazymatch goal with
       | |- (exists p, _) <-> _ =>
           split;
           [ intros [p Hp]; first [split; [assumption | reflexivity] | in_list Hp]
           | intros [Hne Hw];
             first [contradiction | congruence | eexists; apply list_elem_of_here] ]
       | |- forall endpoint body, _ -> (_ <-> _) =>
           intros endpoint body Hin; in_list Hin;
           try (injection Hin as -> ->;
                split;
                [ intros [prt Hf]; first [assumption | part_absent Hf]
                | intros Hne;
                  first [contradiction
                        | eexists; do 2 apply list_elem_of_further; apply list_elem_of_here] ])
       | |- forall e, _ -> _ = Some e -> _ =>
           intros err Hne Hw;
           first [ contradiction
                 | congruence
                 | match goal with
                   | E : write_error env _ = Some ?t |- _ =>
                       assert (err = t) by congruence; subst err
                   end;
                   split;
                   [ intros endpoint body Hin; in_list Hin
                   | eexists; repeat split; reflexivity ] ]
       | |- forall endpoint body f, _ =>
           intros endpoint body prt Hin Hf; in_list Hin;
           try (injection Hin as -> ->;
                repeat (apply elem_of_cons in Hf as [Hf|Hf];
                        [pose proof (f_equal fst Hf) as Hk;
                         pose proof (f_equal snd Hf) as Hv;
                         cbn [fst snd] in Hk, Hv;
                         first [congruence
                               | subst prt; eexists; split;
                                 [apply list_elem_of_here | reflexivity]]
                        |]);
                apply elem_of_nil in Hf; destruct Hf)
       end.
Qed.

End InputPart.

(** ** Where the wording of the specification and the code part *)

(** The concrete environments can send their request. *)
Lemma demo_ready (env : Env) :
  cloudCompilerApiUrl env = DemoHost.localhost ->
  (forall p, write_error env p = None) ->
  @request_ready Runs.linux env Runs.src DemoHost.python (DemoHost.disk Runs.src).
Proof.
  intros E Hw. unfold request_ready. rewrite E. repeat split.
  - vm_compute. eauto.
  - vm_compute. eauto.
  - apply Hw.
Qed.


(** C7, counterexample. The system refuses to unlink the temporary file
    (another program holds it open): the call returns its result, exit
    code 0, and the file it wrote is still on disk, with the payload. *)
Lemma api_temp_file_left_when_unlink_refused : ~ claim_temp_file_always_removed.
Proof.
  intros C.
  pose proof (C Runs.linux Runs.busy_tmp_env Runs.src (lit "1 2") DemoHost.python
                (DemoHost.disk Runs.src) (lit "/tmp/cph_input_1001_4fzyo82mv.txt")) as Hc.
  assert (Hw : WriteFileSync (lit "/tmp/cph_input_1001_4fzyo82mv.txt")
               ∈ new_events (DemoHost.disk Runs.src)
                   (snd (@compileAndRunViaApi Runs.linux Runs.busy_tmp_env Runs.src
                           (lit "1 2") DemoHost.python (DemoHost.disk Runs.src)))).
  { vm_compute. apply list_elem_of_here. }
  specialize (Hc Hw). vm_compute in Hc. discriminate Hc.
Qed.

(** The run of the counterexample: the result is that of the successful
    run. *)
Example busy_run_result :
  @compileAndRunViaApi Runs.linux Runs.busy_tmp_env Runs.src (lit "1 2") DemoHost.python
    (DemoHost.disk Runs.src) = Runs.busy_call
  /\ fst Runs.busy_call = inl RunFacts.ok_run
  /\ files (snd Runs.busy_call) !! lit "/tmp/cph_input_1001_4fzyo82mv.txt"
     = Some (DemoHost.utf8 (lit "1 2")).
Proof. repeat split; vm_compute; reflexivity. Qed.

(** A temporary directory that cannot be written: with the payload [1 2]
    the call sends nothing and returns exit code 1 with the message of
    the refusal. *)
Example readonly_tmp_run :
  exists r w',
    @compileAndRunViaApi Runs.linux Runs.readonly_tmp_env Runs.src (lit "1 2")
      DemoHost.python (DemoHost.disk Runs.src) = (inl r, w')
    /\ code r = Some 1
    /\ stderr r = VStr (lit "EACCES: permission denied, open")
    /\ List.filter is_request (new_events (DemoHost.disk Runs.src) w') = []
    /\ files w' = files (DemoHost.disk Runs.src).
Proof.
  eexists _, _. split; [vm_compute; reflexivity|].
  repeat split; vm_compute; reflexivity.
Qed.

(** C8, counterexample. A payload of one space is not empty, and the call
    writes no temporary file and sends a request without [input] part. *)
Lemma api_space_payload_not_attached : ~ claim_input_part_iff_nonempty.
Proof.
  intros C.
  destruct (C Runs.linux Runs.ok_env Runs.src (lit " ") DemoHost.python
              (DemoHost.disk Runs.src) (demo_ready Runs.ok_env eq_refl (fun _ => eq_refl))) as [[_ Hw] _].
  destruct Hw as [p Hp]; [discriminate|].
  vm_compute in Hp. in_list Hp.
Qed.

(** ** The theorems at concrete runs *)

(** The remote run of the specification: a 2xx answer with [success] true
    and output [42]. *)
Example remote_success :
  @compileAndRunViaApi Runs.linux Runs.ok_env Runs.src (lit "1 2") DemoHost.python
     (DemoHost.disk Runs.src) = Runs.ok_call
  /\ fst Runs.ok_call = inl RunFacts.ok_run
  /\ files (snd Runs.ok_call) = files (DemoHost.disk Runs.src).
Proof. repeat split; vm_compute; reflexivity. Qed.

(** A transport error whose message carries [ECONNREFUSED]: exit code 1,
    the message that names the endpoint, an error notification, and both
    busy-indicator messages. *)
Example remote_connection_refused :
  exists r w',
    @compileAndRunViaApi Runs.linux Runs.refused_env Runs.src [] DemoHost.python
       (DemoHost.disk Runs.src) = (inl r, w')
    /\ code r = Some 1
    /\ stderr r = VStr (lit "Cannot connect to cloud compiler API at http://localhost:3000. Please check if the server is running and the URL is correct.")
    /\ JudgeViewMessage (lit "compiling-start") ∈ events w'
    /\ JudgeViewMessage (lit "compiling-stop") ∈ events w'.
Proof.
  eexists _, _. split; [vm_compute; reflexivity|].
  repeat split; cbn [events]; repeat constructor.
Qed.

Example trim_strips_white_space :
  trim (lit " 1 2 ") = lit "1 2" /\ trim [9; 10; 160; 8232; 65279]%N = [].
Proof. split; reflexivity. Qed.

(** C10 at the successful run. *)
Lemma api_result_no_signal_no_timeout_witness :
  @compileAndRunViaApi Runs.linux Runs.ok_env Runs.src (lit "1 2") DemoHost.python
     (DemoHost.disk Runs.src) = (inl RunFacts.ok_run, snd Runs.ok_call)
  /\ signal RunFacts.ok_run = None /\ timeOut RunFacts.ok_run = false.
Proof.
  assert (E : @compileAndRunViaApi Runs.linux Runs.ok_env Runs.src (lit "1 2")
                DemoHost.python (DemoHost.disk Runs.src)
              = (inl RunFacts.ok_run, snd Runs.ok_call)) by (vm_compute; reflexivity).
  split; [exact E|].
  exact (@api_result_no_signal_no_timeout Runs.linux Runs.ok_env Runs.src (lit "1 2")
           DemoHost.python (DemoHost.disk Runs.src) (snd Runs.ok_call) RunFacts.ok_run E).
Defined.



(** C8 at the successful run, whose payload is [1 2]. *)
Lemma api_input_part_iff_payload_witness :
  url_blank (cloudCompilerApiUrl Runs.ok_env) = false
  /\ is_Some (mapLanguageToApi (name DemoHost.python))
  /\ ((exists p, WriteFileSync p ∈ new_events (DemoHost.disk Runs.src) (snd Runs.ok_call))
      <-> trim (lit "1 2") <> []
          /\ write_error Runs.ok_env
               (@temp_path Runs.linux Runs.ok_env
                  (clock Runs.ok_env (S (clock_reads (DemoHost.disk Runs.src))))) = None).
Proof.
  assert (Hu : url_blank (cloudCompilerApiUrl Runs.ok_env) = false) by reflexivity.
  assert (Ht : is_Some (mapLanguageToApi (name DemoHost.python)))
    by (vm_compute; eauto).
  split; [exact Hu|]. split; [exact Ht|].
  exact (proj1 (@api_input_part_iff_payload Runs.linux Runs.ok_env Runs.src (lit "1 2")
                  DemoHost.python (DemoHost.disk Runs.src) Hu Ht)).
Defined.

(** * Properties of the dispatcher *)

Section DispatcherFacts.
Context `{H : Host} (env : Env).

Lemma shouldUseCloudApi_spec (language : Language) :
  shouldUseCloudApi env language = true
  <-> url_blank (cloudCompilerApiUrl env) = false
      /\ is_Some (mapLanguageToApi (name language)).
Proof.
  unfold shouldUseCloudApi.
  destruct (url_blank _); [split; [discriminate | intros [? _]; discriminate]|].
  rewrite bool_decide_eq_true, <- not_eq_None_Some. tauto.
Qed.

(** C1, as the code has it. With an endpoint configured and a language
    that has a tag, the call takes the remote branch: it hands the source
    path it resolved to [compileAndRunViaApi] and returns what that
    returns, or, when that path is not on disk and no saved document is
    open, it returns the failure result with exit code 1 and starts
    nothing. With an endpoint configured and a language without a tag, it
    shows one warning and starts the local process. With no endpoint, it
    starts the local process and shows nothing. *)
Theorem dispatch_policy (language : Language) (binPath input : jsstring) (w : World) :
  let d := (runTestCase env language binPath input w).1.1 in
  let w' := (runTestCase env language binPath input w).2 in
  (url_blank (cloudCompilerApiUrl env) = false ->
   is_Some (mapLanguageToApi (name language)) ->
   (exists srcPath,
       d = ViaApi srcPath (compileAndRunViaApi env srcPath input language w).1
       /\ w' = (compileAndRunViaApi env srcPath input language w).2)
   \/ (d = NoSource no_source_result /\ w' = w
       /\ file_exists w (source_of_binary w language binPath) = false
       /\ match activeTextEditor env with
          | Some document => isUntitled document = true
          | None => True
          end))
  /\ (url_blank (cloudCompilerApiUrl env) = false ->
      mapLanguageToApi (name language) = None ->
      d = Local (spawn_spec env (alias_interpreter language) binPath)
      /\ new_events w w' = [ShowWarningMessage (fallback_warning language)])
  /\ (url_blank (cloudCompilerApiUrl env) = true ->
      d = Local (spawn_spec env (alias_interpreter language) binPath)
      /\ w' = w).
Proof.
  cbv zeta. split; [|split].
  - intros Hu Ht.
    assert (Hc : shouldUseCloudApi env language = true)
      by (apply shouldUseCloudApi_spec; done).
    unfold runTestCase. rewrite Hc, Hu, tag_missing_mapped.
    destruct Ht as [t Ht]. rewrite Ht. cbn [negb andb bool_decide decide_rel].
    rewrite bool_decide_eq_false_2 by done.
    destruct (file_exists w (source_of_binary w language binPath)) eqn:Ex; cbn [negb].
    + left. exists (source_of_binary w language binPath).
      destruct (compileAndRunViaApi _ _ _ _ _). split; reflexivity.
    + destruct (activeTextEditor env) as [doc|]; [|right; done].
      destruct (isUntitled doc); cbn [negb]; [right; done|].
      left. exists (fileName doc).
      destruct (compileAndRunViaApi _ _ _ _ _). split; reflexivity.
  - intros Hu Ht.
    assert (Hc : shouldUseCloudApi env language = false).
    { apply not_true_is_false. rewrite shouldUseCloudApi_spec, Ht.
      intros [_ [? ?]]; discriminate. }
    unfold runTestCase. rewrite Hc, Hu, Ht. cbn [negb andb tag_missing fst snd].
    split; [reflexivity|]. unfold new_events, add_event. cbn [events].
    apply drop_app_length.
  - intros Hu.
    assert (Hc : shouldUseCloudApi env language = false).
    { apply not_true_is_false. rewrite shouldUseCloudApi_spec, Hu.
      intros [? _]; discriminate. }
    unfold runTestCase. rewrite Hc, Hu. done.
Qed.

(** C9, as the code has it. The remote branch leaves the descriptor as it
    was. The local branch rewrites the [compiler] field of the descriptor
    itself when the platform is [win32] and the field is [python3], and the
    process is started from the rewritten descriptor; the name, the
    arguments and the flag are never changed. *)
Theorem descriptor_after_call (language : Language) (binPath input : jsstring) (w : World) :
  let d := (runTestCase env language binPath input w).1.1 in
  let language' := (runTestCase env language binPath input w).1.2 in
  name language' = name language
  /\ args language' = args language
  /\ skipCompile language' = skipCompile language
  /\ compiler language' =
       match d with
       | Local _ =>
           if str_eqb os_platform (lit "win32")
              && str_eqb (compiler language) (lit "python3")
           then lit "python" else compiler language
       | _ => compiler language
       end
  /\ (forall spec, d = Local spec -> spec = spawn_spec env language' binPath).
Proof.
  cbv zeta. unfold runTestCase.
  destruct (shouldUseCloudApi env language).
  - destruct (negb (file_exists _ _)).
    + destruct (activeTextEditor env) as [doc|]; [|done].
      destruct (negb (isUntitled doc)); [|done].
      destruct (compileAndRunViaApi _ _ _ _ _). done.
    + destruct (compileAndRunViaApi _ _ _ _ _). done.
  - cbn [fst snd]. unfold alias_interpreter.
    destruct (str_eqb os_platform (lit "win32") && str_eqb (compiler language) (lit "python3"));
      cbn [name args skipCompile compiler]; repeat split; congruence.
Qed.

End DispatcherFacts.

(** C1, counterexample. An endpoint is configured and C++ has a tag, but
    neither the binary's source nor an open document can be found: the
    call returns without reaching [compileAndRunViaApi]. *)
Lemma dispatch_source_not_found : ~ claim_mapped_language_reaches_api.
Proof.
  intros C.
  destruct (C Runs.linux DispatchRuns.api DemoHost.cpp (lit "/w/a.bin") []
              DemoHost.empty_disk eq_refl) as (srcPath & out & E).
  - vm_compute. eauto.
  - vm_compute in E. discriminate E.
Qed.

(** C9, counterexample. On [win32], a local run of a Python descriptor
    whose compiler is [python3] leaves it with the compiler [python]. *)
Lemma descriptor_rewritten_on_win32 : ~ claim_descriptor_unchanged.
Proof.
  intros C.
  pose proof (C DispatchRuns.win32 DispatchRuns.no_api DemoHost.python
                (lit "/w/a.py") [] DemoHost.empty_disk) as E.
  vm_compute in E. discriminate E.
Qed.

(** * Properties of local execution *)

Ltac step_cases Hs :=
  unfold step, update_call in Hs;
  repeat match type of Hs with
         | context [?m !! ?k] => destruct (m !! k) eqn:?; cbn [mbind option_bind] in Hs
         | context [match ?x with _ => _ end] => destruct x eqn:?
         end;
  try discriminate; injection Hs as <-.

(** ** What the timer does *)

Lemma run_invariant (P : System -> Prop) :
  (forall l s s', step l s = Some s' -> P s -> P s') ->
  forall tr s s', run tr s = Some s' -> P s -> P s'.
Proof.
  intros Hstep tr. induction tr as [|l tr IH]; intros s s'; cbn [run].
  - intros [= <-]. done.
  - destruct (step l s) as [s1|] eqn:E; cbn; [|discriminate].
    intros Hr HP. eapply IH; [exact Hr|]. eapply Hstep; eassumption.
Qed.

Lemma deliver_pstate (pr : Proc) : pstate (deliver_sigterm pr) = pstate pr.
Proof. unfold deliver_sigterm. destruct (pstate pr) eqn:E; cbn; congruence. Qed.


Lemma kill_lookup (p q : nat) (ps : gmap nat Proc) :
  kill p ps !! q = if decide (p = q) then deliver_sigterm <$> ps !! q else ps !! q.
Proof.
  unfold kill. destruct (decide (p = q)) as [->|Hne].
  - apply lookup_alter_eq.
  - by apply lookup_alter_ne.
Qed.

Lemma kill_pstate (p q : nat) (ps : gmap nat Proc) :
  pstate <$> kill p ps !! q = pstate <$> ps !! q.
Proof.
  rewrite kill_lookup. destruct (decide (p = q)); [|done].
  destruct (ps !! q) as [pr|]; cbn; [|done]. by rewrite deliver_pstate.
Qed.

Lemma killall_pstate (l : list nat) (q : nat) (ps : gmap nat Proc) :
  pstate <$> foldl (fun ps p => kill p ps) ps l !! q = pstate <$> ps !! q.
Proof.
  revert ps. induction l as [|p l IH]; intros ps; cbn [foldl]; [done|].
  rewrite IH. apply kill_pstate.
Qed.



Lemma is_running_pstate (p : nat) (s s' : System) :
  pstate <$> procs s' !! p = pstate <$> procs s !! p ->
  is_running p s' = is_running p s.
Proof.
  unfold is_running. intros Hq.
  destruct (procs s' !! p) as [a|], (procs s !! p) as [b|]; cbn in Hq;
    try discriminate; [|done].
  injection Hq as ->. done.
Qed.









Lemma run_app (tr1 tr2 : list label) (s : System) :
  run (tr1 ++ tr2) s = s1 ← run tr1 s; run tr2 s1.
Proof.
  revert s. induction tr1 as [|l tr1 IH]; intros s; cbn [run app]; [done|].
  destruct (step l s) as [s1|]; cbn; [apply IH | done].
Qed.

Lemma run_snoc (tr : list label) (l : label) (s : System) :
  run (tr ++ [l]) s = s1 ← run tr s; step l s1.
Proof.
  rewrite run_app. destruct (run tr s) as [s1|]; cbn; [|done].
  destruct (step l s1); done.
Qed.

Lemma step_timed_out_eq (l : label) (s s' : System) (p : nat) :
  step l s = Some s' -> timed_out p s' = timed_out p s || is_killer p l.
Proof.
  intros Hs. unfold timed_out. destruct l; step_cases Hs; cbn [calls is_killer];
    rewrite ?orb_false_r; try reflexivity.
  all: destruct (decide (p0 = p)) as [->|Hne];
    [rewrite lookup_insert_eq, ?bool_decide_eq_true_2 by done
    |rewrite lookup_insert_ne, ?bool_decide_eq_false_2 by done;
     rewrite ?orb_false_r; reflexivity].
  all: cbn [result timeOut];
    repeat match goal with E : calls _ !! _ = _ |- _ => rewrite E; clear E end;
    rewrite ?orb_true_r; reflexivity.
Qed.

Lemma run_timed_out_eq (tr : list label) (s s' : System) (p : nat) :
  run tr s = Some s' -> timed_out p s' = timed_out p s || existsb (is_killer p) tr.
Proof.
  revert s. induction tr as [|l tr IH]; intros s; cbn [run existsb].
  - intros [= <-]. by rewrite orb_false_r.
  - destruct (step l s) as [s1|] eqn:E; cbn; [|discriminate].
    intros Hr. rewrite (IH _ Hr), (step_timed_out_eq _ _ _ p E). symmetry. apply orb_assoc.
Qed.

Lemma step_resolved_eq (l : label) (s s' : System) (p : nat) :
  step l s = Some s' -> is_resolved p s' = is_resolved p s || is_end p l.
Proof.
  intros Hs. unfold is_resolved. destruct l; step_cases Hs; cbn [calls is_end];
    rewrite ?orb_false_r; try reflexivity.
  all: destruct (decide (p0 = p)) as [->|Hne];
    [rewrite lookup_insert_eq, ?bool_decide_eq_true_2 by done
    |rewrite lookup_insert_ne, ?bool_decide_eq_false_2 by done;
     rewrite ?orb_false_r; reflexivity].
  all: cbn [resolved];
    repeat match goal with E : calls _ !! _ = _ |- _ => rewrite E; clear E end;
    rewrite ?orb_true_r, ?orb_false_r; reflexivity.
Qed.

Lemma run_resolved_eq (tr : list label) (s s' : System) (p : nat) :
  run tr s = Some s' -> is_resolved p s' = is_resolved p s || existsb (is_end p) tr.
Proof.
  revert s. induction tr as [|l tr IH]; intros s; cbn [run existsb].
  - intros [= <-]. by rewrite orb_false_r.
  - destruct (step l s) as [s1|] eqn:E; cbn; [|discriminate].
    intros Hr. rewrite (IH _ Hr), (step_resolved_eq _ _ _ p E). symmetry. apply orb_assoc.
Qed.

Lemma step_timer_spent (l : label) (s s' : System) (p : nat) :
  step l s = Some s' -> timer_spent p s -> timer_spent p s'.
Proof.
  intros Hs (c & Hc & Hp). unfold timer_spent.
  destruct l; step_cases Hs; cbn [calls]; eauto.
  all: destruct (decide (p0 = p)) as [->|Hne];
    [rewrite lookup_insert_eq | rewrite lookup_insert_ne by done; eauto].
  all: try congruence.
  all: eexists; split; [reflexivity|]; cbn [killer_pending]; congruence.
Qed.

Lemma spent_timer_is_silent (tr : list label) (s s' : System) (p : nat) :
  run tr s = Some s' -> timer_spent p s -> existsb (is_killer p) tr = false.
Proof.
  revert s. induction tr as [|l tr IH]; intros s; cbn [run existsb]; [done|].
  destruct (step l s) as [s1|] eqn:E; cbn; [|discriminate].
  intros Hr Hsp. rewrite (IH _ Hr (step_timer_spent _ _ _ p E Hsp)), orb_false_r.
  destruct l; try reflexivity. cbn [is_killer].
  destruct (decide (p0 = p)) as [->|Hne]; [|by apply bool_decide_eq_false_2].
  destruct Hsp as (c & Hc & Hp). unfold step in E. rewrite Hc in E. cbn in E.
  rewrite Hp in E. discriminate.
Qed.

Lemma step_spends_timer (l : label) (s s' : System) (p : nat) :
  step l s = Some s' -> is_killer p l || is_end p l = true -> timer_spent p s'.
Proof.
  intros Hs Hl. unfold timer_spent.
  destruct l; cbn [is_killer is_end orb] in Hl; rewrite ?orb_false_r in Hl;
    try discriminate;
    apply bool_decide_eq_true in Hl as ->; step_cases Hs; cbn [calls];
    rewrite lookup_insert_eq; eexists; split; reflexivity.
Qed.

Lemma run_spends_timer (tr : list label) (s s' : System) (p : nat) :
  run tr s = Some s' ->
  existsb (fun l => is_killer p l || is_end p l) tr = true -> timer_spent p s'.
Proof.
  revert s. induction tr as [|l tr IH]; intros s; cbn [run existsb]; [discriminate|].
  destruct (step l s) as [s1|] eqn:E; cbn; [|discriminate].
  intros Hr Hx. destruct (existsb _ tr) eqn:Ht.
  - eapply IH; [exact Hr | reflexivity].
  - rewrite orb_false_r in Hx.
    apply (run_invariant (timer_spent p)) with (tr := tr) (s := s1); [|exact Hr|].
    + intros l0 s0 s0'. apply step_timer_spent.
    + eapply step_spends_timer; eassumption.
Qed.





(** C5, counterexample. The result of a call whose process was ended by
    the timer carries both the signal and the timeout flag. *)
Lemma timed_out_result_has_two_causes : ~ claim_one_cause.
Proof.
  intros C.
  destruct (C LocalRuns.timeout_trace LocalRuns.timed_out_system 1%nat
              LocalRuns.timed_out_result) as [Hc _].
  - vm_compute. reflexivity.
  - vm_compute. reflexivity.
  - vm_compute in Hc. discriminate Hc.
Qed.

(** The result of a launch failure carries both an exit code and a
    signal (an instance of the third part of the theorem below). *)
Example spawn_error_result_has_two_causes :
  exists s r,
    run LocalRuns.spawn_error_trace initial = Some s
    /\ outcome_of 1 s = Some r
    /\ code r = Some 1 /\ signal r = Some (lit "Error") /\ timeOut r = false.
Proof.
  eexists _, _. split; [vm_compute; reflexivity|].
  split; [vm_compute; reflexivity|]. repeat split.
Qed.

(** ** Results of settled calls *)

Lemma last_end_snoc (p : nat) (tr : list label) (l : label) :
  last_end p (tr ++ [l]) = if is_end p l then Some l else last_end p tr.
Proof. unfold last_end. rewrite foldl_app. reflexivity. Qed.

(** The fields [code] and [signal] of a resolved call are those which the
    last [exit] or [error] event of its process left. *)
Lemma settled_by_last_end (tr : list label) :
  forall s p c,
    run tr initial = Some s -> calls s !! p = Some c -> resolved c = true ->
    exists l, last_end p tr = Some l
              /\ end_marks l = Some (code (result c), signal (result c)).
Proof.
  induction tr as [|l tr IH] using rev_ind; intros s p c.
  - intros [= <-]. cbn [initial calls]. rewrite lookup_empty. discriminate.
  - rewrite run_snoc. destruct (run tr initial) as [s1|] eqn:Hr; cbn; [|discriminate].
    intros Hs Hc Hres. rewrite last_end_snoc.
    specialize (IH s1 p).
    destruct l; step_cases Hs; cbn [calls is_end] in *.
    all: try (eapply IH; [reflexivity | exact Hc | exact Hres]).
    all: destruct (decide (p0 = p)) as [->|Hne];
      [rewrite lookup_insert_eq in Hc; injection Hc as <-;
       rewrite ?bool_decide_eq_true_2 by done
      |rewrite lookup_insert_ne in Hc by done;
       rewrite ?bool_decide_eq_false_2 by done;
       eapply IH; [reflexivity | exact Hc | exact Hres]].
    all: cbn [result resolved code signal] in *; try discriminate.
    all: try match goal with
           | E : calls _ !! _ = Some ?c0 |- exists _, last_end _ _ = _ /\ _ =>
               exact (IH c0 eq_refl E Hres)
           end.
    all: eexists; split; [reflexivity|]; try destruct st; reflexivity.
Qed.

(** C5, as the code has it. A result of the remote client, and the
    failure result of the source lookup, carry an exit code, no signal and
    no timeout flag. A result of a local call carries what the last
    [exit] or [error] event of its process left: the code of an exit and
    no signal, or the signal that ended the process and no code, or, for
    an [error] event, both the code 1 and the name of the error as signal;
    so the two are never both absent. *)
Theorem result_always_has_code_or_signal :
  (forall (H : Host) (env : Env) (srcPath input : jsstring) (language : Language)
          (w w' : World) (r : Run),
      compileAndRunViaApi env srcPath input language w = (inl r, w') ->
      is_Some (code r) /\ signal r = None /\ timeOut r = false)
  /\ (forall (H : Host) (env : Env) (language : Language) (binPath input : jsstring)
             (w : World) (r : Run),
        (runTestCase env language binPath input w).1.1 = NoSource r ->
        is_Some (code r) /\ signal r = None /\ timeOut r = false)
  /\ (forall (tr : list label) (s : System) (p : nat) (r : Run),
        run tr initial = Some s -> outcome_of p s = Some r ->
        (is_Some (code r) \/ is_Some (signal r))
        /\ exists l,
             last_end p tr = Some l
             /\ match l with
                | Exit _ (ExitCode z) _ => code r = Some z /\ signal r = None
                | Exit _ (ExitSignal g) _ => code r = None /\ signal r = Some g
                | Error _ err_name _ => code r = Some 1 /\ signal r = Some err_name
                | _ => False
                end).
Proof.
  split; [|split].
  - intros H env srcPath input language w w' r E.
    exact (compileAndRunViaApi_shape env _ _ _ _ _ _ E).
  - intros H env language binPath input w r. unfold runTestCase.
    destruct (shouldUseCloudApi env language); [|discriminate].
    destruct (negb (file_exists _ _)).
    + destruct (activeTextEditor env) as [doc|].
      * destruct (negb (isUntitled doc)).
        -- destruct (compileAndRunViaApi _ _ _ _ _). discriminate.
        -- intros [= <-]. cbn. eauto.
      * intros [= <-]. cbn. eauto.
    + destruct (compileAndRunViaApi _ _ _ _ _). discriminate.
  - intros tr s p r Hr. unfold outcome_of.
    destruct (calls s !! p) as [c|] eqn:Hc; cbn; [|discriminate].
    destruct (resolved c) eqn:Hres; [|discriminate]. intros [= <-].
    destruct (settled_by_last_end tr s p c Hr Hc Hres) as (l & Hl & Hm).
    split.
    + destruct l; try discriminate Hm; [destruct st|];
        injection Hm as <- <-; eauto.
    + exists l. split; [exact Hl|].
      destruct l; try discriminate Hm; [destruct st|];
        injection Hm as <- <-; done.
Qed.

(** A process is pushed on the registry when it starts. *)
Lemma start_pushes (p : nat) (spawned : bool) (compiler_ input : jsstring) (now : Z)
    (s s' : System) :
  step (Start p spawned compiler_ input now) s = Some s' ->
  runningBinaries s' = runningBinaries s ++ [p].
Proof. intros Hs. step_cases Hs; reflexivity. Qed.

(** The [exit] handler takes the last entry off the registry, whichever
    process exits. *)
Lemma exit_pops_last (p : nat) (st : exit_status) (now : Z) (s s' : System) :
  step (Exit p st now) s = Some s' ->
  runningBinaries s' = removelast (runningBinaries s).
Proof. intros Hs. step_cases Hs; reflexivity. Qed.

(** With one call at a time the registry is right: it is empty again when
    the process has exited. *)
Example single_call_registry :
  exists s,
    run [Start 1 true (lit "python3") [] 1000; Exit 1 (ExitCode 0) 1002] initial = Some s
    /\ runningBinaries s = [] /\ is_running 1 s = false.
Proof.
  eexists. split; [vm_compute; reflexivity|]. split; reflexivity.
Qed.

(** C6, at the failing run. Two calls overlap and the process started
    first exits first: [pop] takes the other process out of the registry.
    The registry then names the process that exited and not the one that
    runs, and [killRunning] sends no signal to the running one. *)
Theorem registry_keeps_exited_process :
  exists s s',
    run LocalRuns.overlap_trace initial = Some s
    /\ runningBinaries s = [1%nat]
    /\ is_running 1 s = false
    /\ is_running 2 s = true
    /\ ~ registry_exact s
    /\ step KillRunning s = Some s'
    /\ signals_of 2 s' = []
    /\ is_running 2 s' = true.
Proof.
  eexists _, _. split; [vm_compute; reflexivity|].
  split; [reflexivity|]. split; [reflexivity|]. split; [reflexivity|].
  split.
  { intros Hx. destruct (Hx 2%nat) as [_ Hin].
    specialize (Hin eq_refl). apply list_elem_of_singleton in Hin. discriminate Hin. }
  split; [vm_compute; reflexivity|]. split; reflexivity.
Qed.


(** The process of the counterexample also gets the signal of the
    [timeout] option of [spawn]: two [SIGTERM]s, and it runs on. *)
Example two_timers_send_sigterm_twice :
  run MoreRuns.two_timers_trace initial = Some MoreRuns.two_timers
  /\ signals_of 1 MoreRuns.two_timers = [lit "SIGTERM"; lit "SIGTERM"]
  /\ is_running 1 MoreRuns.two_timers = true
  /\ is_resolved 1 MoreRuns.two_timers = false.
Proof. repeat split; vm_compute; reflexivity. Qed.
(** * Further properties of the remote execution client *)

(** The two precondition checks, under their outcome. *)
Ltac api_checks Hu Ht :=
  unfold compileAndRunViaApi, compileAndRunViaApi_body;
  rewrite ?Hu, ?Ht; cbn [tag_missing];
  rewrite ?(mapped_tag _ _ Ht);
  api_unfold; api_norm.

Section ApiClientGuards.
Context `{H : Host} (env : Env).

(** X1. [compileAndRunViaApi] throws exactly when [shouldUseCloudApi] is
    false. It then sends no request, reads no clock and leaves the disk
    alone; the only effect is the warning shown for a language without a
    tag when an endpoint is configured. *)
Theorem api_throws_iff_disabled (srcPath input : jsstring) (language : Language)
    (w : World) :
  ((exists e, fst (compileAndRunViaApi env srcPath input language w) = inr e)
   <-> shouldUseCloudApi env language = false)
  /\ (shouldUseCloudApi env language = false ->
      files (snd (compileAndRunViaApi env srcPath input language w)) = files w
      /\ clock_reads (snd (compileAndRunViaApi env srcPath input language w)) = clock_reads w
      /\ new_events w (snd (compileAndRunViaApi env srcPath input language w))
         = if url_blank (cloudCompilerApiUrl env) then []
           else [ShowWarningMessage (unsupported_message language)]).
Proof.
  unfold shouldUseCloudApi.
  destruct (url_blank (cloudCompilerApiUrl env)) eqn:Hu.
  - unfold compileAndRunViaApi, compileAndRunViaApi_body. rewrite Hu. mrun.
    split; [split; eauto|]. intros _. unfold new_events. cbn [events].
    rewrite drop_all. done.
  - destruct (mapLanguageToApi (name language)) as [tag|] eqn:Ht.
    + split.
      * split; [|rewrite bool_decide_eq_false; intros Hn; destruct Hn; done].
        intros [e He]. exfalso. revert He.
        api_checks Hu Ht. repeat break_match; discriminate.
      * rewrite bool_decide_eq_false. intros Hn. destruct Hn. done.
    + unfold compileAndRunViaApi, compileAndRunViaApi_body. rewrite Hu, Ht.
      cbn [tag_missing]. mrun.
      split; [split; [intros _; by apply bool_decide_eq_false; intros ? | eauto]|].
      intros _. unfold new_events. cbn [events]. rewrite drop_app_length. done.
Qed.

End ApiClientGuards.

Section ApiClientTraffic.
Context `{H : Host} (env : Env).

(** X2. The busy-indicator messages come in a pair around the request: a
    call either shows none and sends nothing, or shows [compiling-start],
    sends one request to [<endpoint>/compile] (one trailing slash of the
    endpoint dropped), and shows [compiling-stop], in this order, whether
    the request is answered, refused, or answered with something the call
    cannot use. *)
Theorem api_traffic_is_one_bracketed_request (srcPath input : jsstring)
    (language : Language) (w : World) :
  let evs := new_events w (snd (compileAndRunViaApi env srcPath input language w)) in
  List.filter is_traffic evs = []
  \/ exists body,
       List.filter is_traffic evs
       = [JudgeViewMessage (lit "compiling-start");
          Fetch (strip_trailing_slash (default [] (cloudCompilerApiUrl env))
                 ++ lit "/compile") body;
          JudgeViewMessage (lit "compiling-stop")].
Proof.
  cbv zeta. api_unfold. repeat break_match.
  all: leaf_absurd.
  all: events_norm.
  all: rewrite <- ?app_assoc; cbn [app List.filter is_traffic].
  all: first [left; reflexivity | right; eexists; reflexivity].
Qed.

End ApiClientTraffic.

Lemma mapped_tag_known (l t : jsstring) :
  mapLanguageToApi l = Some t -> t ∈ api_tags.
Proof.
  unfold mapLanguageToApi, api_tags.
  repeat match goal with
         | |- context [if ?b then _ else _] => destruct b
         end; intros [= <-];
    repeat first [apply list_elem_of_here | apply list_elem_of_further].
Qed.

(** What was read from a path other than the one just written. *)
Ltac read_back Hc Hne :=
  repeat match goal with
         | E : <[_ := _]> _ !! _ = _ |- _ =>
             rewrite lookup_insert_ne in E by (intros ?; apply Hne; congruence)
         end;
  repeat match goal with
         | E : _ !! _ = _ |- _ => rewrite Hc in E
         end;
  repeat match goal with
         | E : Some _ = Some _ |- _ => injection E as <-
         | E : Some _ = None |- _ => discriminate E
         | E : None = Some _ |- _ => discriminate E
         end.

Section ApiClientRequest.
Context `{H : Host} (env : Env).

(** X3. The request a call sends. When the payload has a character that
    is not white space and the system refuses to write the temporary
    file, no request is sent. Otherwise exactly one is sent, to the
    endpoint with one trailing slash dropped and [/compile] appended. Its
    parts are, in this order, the tag of the language (one of the eight
    the endpoint knows), the bytes of the source file as they are on disk
    under the base name of the source path, and, only for a payload with
    a character that is not white space, the encoded payload under the
    name of the temporary file. *)
Theorem api_request_contents (srcPath input : jsstring) (language : Language)
    (w : World) (url tag : jsstring) (c : list N) :
  cloudCompilerApiUrl env = Some url ->
  url_blank (Some url) = false ->
  mapLanguageToApi (name language) = Some tag ->
  files w !! srcPath = Some c ->
  srcPath <> temp_path env (clock env (S (clock_reads w))) ->
  tag ∈ api_tags
  /\ List.filter is_request
       (new_events w (snd (compileAndRunViaApi env srcPath input language w)))
     = match (if str_eqb (trim input) [] then None
              else write_error env (temp_path env (clock env (S (clock_reads w))))) with
       | Some _ => []
       | None =>
           [Fetch (strip_trailing_slash url ++ lit "/compile")
              ([(lit "lang", PString tag);
                (lit "code", PFile (path_basename srcPath) c)]
               ++ if str_eqb (trim input) [] then []
                  else [(lit "input",
                         PFile (path_basename
                                  (temp_path env (clock env (S (clock_reads w)))))
                           (utf8_encode input))])]
       end.
Proof.
  intros Eu Hu Ht Hc Hne. split; [exact (mapped_tag_known _ _ Ht)|].
  rewrite <- Eu in Hu.
  unfold temp_path in *. api_checks Hu Ht. rewrite Eu. cbn [default].
  rewrite input_guard.
  destruct (str_eqb (trim input) []) eqn:Hb; cbn [negb]; api_norm.
  all: repeat break_match.
  all: leaf_absurd.
  all: read_back Hc Hne.
  all: events_norm.
  all: rewrite <- ?app_assoc; cbn [app List.filter is_request default].
  all: reflexivity.
Qed.

End ApiClientRequest.

Section ApiClientFailures.
Context `{H : Host} (env : Env).

(** X4. A source file that is not on disk: the call sends no request and
    shows no busy-indicator message; it returns exit code 1 with empty
    [stdout], [stderr] is the explained message of the failed read, and
    the same text is shown as an error notification. *)
Theorem api_missing_source (srcPath input : jsstring) (language : Language)
    (w : World) (url : jsstring) :
  cloudCompilerApiUrl env = Some url ->
  url_blank (Some url) = false ->
  is_Some (mapLanguageToApi (name language)) ->
  files w !! srcPath = None ->
  srcPath <> temp_path env (clock env (S (clock_reads w))) ->
  temp_writable env w ->
  exists r w',
    compileAndRunViaApi env srcPath input language w = (inl r, w')
    /\ code r = Some 1
    /\ stdout r = VStr []
    /\ stderr r = VStr (explain url (message_of (enoent (lit "open") srcPath)))
    /\ List.filter is_traffic (new_events w w') = []
    /\ ShowErrorMessage (lit "Cloud compiler error: "
                         ++ explain url (message_of (enoent (lit "open") srcPath)))
       ∈ new_events w w'.
Proof.
  intros Eu Hu [tag Ht] Hc Hne Hw. rewrite <- Eu in Hu.
  unfold temp_writable, temp_path in *. api_checks Hu Ht. rewrite Eu, ?Hw. cbn [default].
  api_norm.
  repeat break_match.
  all: leaf_absurd.
  all: read_back Hc Hne.
  all: eexists _, _; split; [reflexivity|]; cbn [code stdout stderr].
  all: events_norm; rewrite <- ?app_assoc; cbn [app List.filter is_traffic].
  all: repeat split; try reflexivity.
  all: repeat first [apply list_elem_of_here | apply list_elem_of_further].
Qed.

(** X5. A request that fails in the transport (the promise of [fetch]
    rejects): the call still returns. The result has exit code 1, empty
    [stdout], and [stderr] is the explained message of what was thrown;
    the error is shown as a notification, and [compiling-stop] was sent. *)
Theorem api_network_failure (srcPath input : jsstring) (language : Language)
    (w : World) (url : jsstring) (e : thrown) :
  cloudCompilerApiUrl env = Some url ->
  url_blank (Some url) = false ->
  is_Some (mapLanguageToApi (name language)) ->
  is_Some (files w !! srcPath) ->
  fetch_result env = FetchRejects e ->
  temp_writable env w ->
  exists r w',
    compileAndRunViaApi env srcPath input language w = (inl r, w')
    /\ code r = Some 1
    /\ stdout r = VStr []
    /\ stderr r = VStr (explain url (message_of e))
    /\ JudgeViewMessage (lit "compiling-stop") ∈ new_events w w'
    /\ ShowErrorMessage (lit "Cloud compiler error: " ++ explain url (message_of e))
       ∈ new_events w w'.
Proof.
  intros Eu Hu [tag Ht] Hs Hf Hw. rewrite <- Eu in Hu.
  unfold temp_writable, temp_path in Hw.
  api_checks Hu Ht. rewrite Eu, Hf, ?Hw. cbn [default]. api_norm.
  repeat break_match.
  all: leaf_absurd.
  all: try source_present.
  all: eexists _, _; split; [reflexivity|]; cbn [code stdout stderr].
  all: events_norm; rewrite <- ?app_assoc; cbn [app].
  all: repeat split; try reflexivity.
  all: repeat first [apply list_elem_of_here | apply list_elem_of_further].
Qed.

(** X6. A 2xx answer whose body the call cannot use. A body that is not
    JSON is reported like a transport failure, with exit code 1 and the
    explained message of the parse error. A body that is [null] gives exit
    code 1 and empty [stdout]. A body that is a string, a number, a
    boolean or an array is treated as a failed run without details: exit
    code 1, empty [stdout], and the stand-in text on [stderr]. *)
Theorem api_2xx_unusable_body (srcPath input : jsstring) (language : Language)
    (w : World) (url : jsstring) (resp : Response) :
  cloudCompilerApiUrl env = Some url ->
  url_blank (Some url) = false ->
  is_Some (mapLanguageToApi (name language)) ->
  is_Some (files w !! srcPath) ->
  fetch_result env = FetchResolves resp ->
  response_ok resp = true ->
  temp_writable env w ->
  exists r w',
    compileAndRunViaApi env srcPath input language w = (inl r, w')
    /\ match body_json resp with
       | inr e =>
           code r = Some 1 /\ stdout r = VStr []
           /\ stderr r = VStr (explain url (message_of e))
       | inl VNull => code r = Some 1 /\ stdout r = VStr []
       | inl (VObj _) => True
       | inl _ =>
           code r = Some 1 /\ stdout r = VStr []
           /\ stderr r = VStr (lit "Unknown error")
       end.
Proof.
  intros Eu Hu [tag Ht] Hs Hf Hok Hw. rewrite <- Eu in Hu.
  unfold temp_writable, temp_path in Hw.
  api_checks Hu Ht. rewrite Eu, Hf, Hok, ?Hw. cbn [default]. api_norm.
  destruct (body_json resp) as [[]|e]; cbn [get]; api_norm;
    cbn [truthy_opt or_else].
  all: repeat break_match.
  all: leaf_absurd.
  all: try source_present.
  all: eexists _, _; split; [reflexivity|]; cbn [code stdout stderr].
  all: repeat split; reflexivity.
Qed.

End ApiClientFailures.

(** ** Reading the message of a failure *)

Lemma startsWith_app (p s : jsstring) : startsWith p (p ++ s) = true.
Proof.
  induction p as [|a p IH]; cbn [startsWith app]; [done|].
  rewrite N.eqb_refl. exact IH.
Qed.

Lemma includes_here (p s : jsstring) : startsWith p s = true -> includes p s = true.
Proof. intros Hs. destruct s; cbn [includes]; rewrite Hs; reflexivity. Qed.

Lemma includes_app_r (p a s : jsstring) :
  includes p s = true -> includes p (a ++ s) = true.
Proof.
  intros Hs. induction a as [|x a IH]; cbn [app]; [exact Hs|].
  cbn [includes]. rewrite IH. apply orb_true_r.
Qed.

Lemma includes_app_l (p s b : jsstring) :
  includes p s = true -> includes p (s ++ b) = true.
Proof.
  revert p. induction s as [|x s IH]; intros p Hs.
  - destruct p; [|discriminate]. destruct b; reflexivity.
  - cbn [includes] in Hs. apply orb_true_iff in Hs as [Hs|Hs].
    + apply includes_here.
      clear IH. revert x s Hs. induction p as [|y p IHp]; intros x s Hs; [done|].
      cbn [startsWith app] in *. apply andb_true_iff in Hs as [-> Hs]. cbn [andb].
      destruct s as [|z s]; [destruct p; [done | discriminate]|].
      apply IHp. exact Hs.
    + cbn [app includes]. rewrite (IH _ Hs). apply orb_true_r.
Qed.

Lemma includes_middle (p a b : jsstring) : includes p (a ++ p ++ b) = true.
Proof. apply includes_app_r, includes_here, startsWith_app. Qed.

Lemma explain_refused (url m : jsstring) :
  includes (lit "ECONNREFUSED") m || includes (lit "ENOTFOUND") m = true ->
  explain url m
  = lit "Cannot connect to cloud compiler API at " ++ url
    ++ lit ". Please check if the server is running and the URL is correct.".
Proof. intros Hm. unfold explain. rewrite Hm. reflexivity. Qed.

Lemma explain_timed_out (url m : jsstring) :
  includes (lit "ECONNREFUSED") m || includes (lit "ENOTFOUND") m = false ->
  includes (lit "ETIMEDOUT") m || includes (lit "timeout") m = true ->
  explain url m = lit "Request to cloud compiler API timed out. Please try again.".
Proof. intros Hr Hm. unfold explain. rewrite Hr, Hm. reflexivity. Qed.

Section ApiClientMessages.
Context `{H : Host} (env : Env).

(** X7. An error whose message names a refused or unresolved connection
    is reported with the endpoint: when the message of what [fetch] threw
    contains [ECONNREFUSED] or [ENOTFOUND], [stderr] is the sentence that
    names the configured URL and asks whether the server is running,
    whatever else the message says; the exit code is 1. *)
Theorem api_connection_refused (srcPath input : jsstring) (language : Language)
    (w : World) (url : jsstring) (e : thrown) :
  cloudCompilerApiUrl env = Some url ->
  url_blank (Some url) = false ->
  is_Some (mapLanguageToApi (name language)) ->
  is_Some (files w !! srcPath) ->
  fetch_result env = FetchRejects e ->
  includes (lit "ECONNREFUSED") (message_of e)
  || includes (lit "ENOTFOUND") (message_of e) = true ->
  temp_writable env w ->
  exists r w' text,
    compileAndRunViaApi env srcPath input language w = (inl r, w')
    /\ code r = Some 1
    /\ stderr r = VStr text
    /\ text = lit "Cannot connect to cloud compiler API at " ++ url
              ++ lit ". Please check if the server is running and the URL is correct."
    /\ includes url text = true.
Proof.
  intros Eu Hu [tag Ht] Hs Hf Hm Hw. rewrite <- Eu in Hu.
  unfold temp_writable, temp_path in Hw.
  api_checks Hu Ht. rewrite Eu, Hf, ?Hw. cbn [default]. api_norm.
  repeat break_match.
  all: leaf_absurd.
  all: try source_present.
  all: eexists _, _, _; split; [reflexivity|]; cbn [code stdout stderr].
  all: unfold id; rewrite (explain_refused url _ Hm).
  all: repeat split; try reflexivity.
  all: apply includes_middle.
Qed.

(** X8. The message of a failed read names the path, and the path is
    searched for the marks of a network error like any other part of the
    message: a source file that is missing and whose path contains
    [timeout] is reported as a request that timed out (unless the message
    also carries one of the marks of a refused connection). *)
Theorem api_missing_source_named_timeout (srcPath input : jsstring)
    (language : Language) (w : World) (url : jsstring) :
  cloudCompilerApiUrl env = Some url ->
  url_blank (Some url) = false ->
  is_Some (mapLanguageToApi (name language)) ->
  files w !! srcPath = None ->
  srcPath <> temp_path env (clock env (S (clock_reads w))) ->
  includes (lit "timeout") srcPath = true ->
  includes (lit "ECONNREFUSED") (message_of (enoent (lit "open") srcPath))
  || includes (lit "ENOTFOUND") (message_of (enoent (lit "open") srcPath)) = false ->
  temp_writable env w ->
  exists r w',
    compileAndRunViaApi env srcPath input language w = (inl r, w')
    /\ code r = Some 1
    /\ stderr r = VStr (lit "Request to cloud compiler API timed out. Please try again.")
    /\ List.filter is_traffic (new_events w w') = [].
Proof.
  intros Eu Hu [tag Ht] Hc Hne Hin Hnot Hw. rewrite <- Eu in Hu.
  assert (Hm : explain url (message_of (enoent (lit "open") srcPath))
               = lit "Request to cloud compiler API timed out. Please try again.").
  { apply explain_timed_out; [exact Hnot|].
    apply orb_true_iff. right. unfold enoent, message_of.
    rewrite !app_assoc. apply includes_app_l, includes_app_r. exact Hin. }
  unfold temp_writable, temp_path in *. api_checks Hu Ht. rewrite Eu, ?Hw. cbn [default].
  api_norm.
  repeat break_match.
  all: leaf_absurd.
  all: read_back Hc Hne.
  all: eexists _, _; split; [reflexivity|]; cbn [code stdout stderr].
  all: unfold id; rewrite Hm.
  all: events_norm; rewrite <- ?app_assoc; cbn [app List.filter is_traffic].
  all: repeat split; reflexivity.
Qed.

End ApiClientMessages.

(** X3 at a run with a payload. *)
Lemma api_request_contents_witness :
  lit "python" ∈ api_tags
  /\ List.filter is_request
       (new_events (DemoHost.disk Runs.src)
          (snd (@compileAndRunViaApi Runs.linux Runs.ok_env Runs.src (lit "1 2")
                  DemoHost.python (DemoHost.disk Runs.src))))
     = [Fetch (strip_trailing_slash (lit "http://localhost:3000") ++ lit "/compile")
          ([(lit "lang", PString (lit "python"));
            (lit "code", PFile (@path_basename Runs.linux Runs.src)
                           (DemoHost.utf8 (lit "print(42)")))]
           ++ [(lit "input",
                PFile (@path_basename Runs.linux
                         (@temp_path Runs.linux Runs.ok_env
                            (clock Runs.ok_env
                               (S (clock_reads (DemoHost.disk Runs.src))))))
                  (@utf8_encode Runs.linux (lit "1 2")))])].
Proof.
  apply (@api_request_contents Runs.linux Runs.ok_env Runs.src (lit "1 2")
           DemoHost.python (DemoHost.disk Runs.src)
           (lit "http://localhost:3000") (lit "python")
           (DemoHost.utf8 (lit "print(42)"))).
  - reflexivity.
  - reflexivity.
  - reflexivity.
  - vm_compute. reflexivity.
  - vm_compute. discriminate.
Defined.

(** X4 at a path on which there is no file. *)
Lemma api_missing_source_witness :
  files (DemoHost.disk Runs.src) !! MoreRuns.missing = None
  /\ exists r w',
       @compileAndRunViaApi Runs.linux Runs.ok_env MoreRuns.missing (lit "1 2")
         DemoHost.python (DemoHost.disk Runs.src) = (inl r, w')
       /\ code r = Some 1
       /\ stdout r = VStr []
       /\ stderr r
          = VStr (explain (lit "http://localhost:3000")
                    (message_of (enoent (lit "open") MoreRuns.missing)))
       /\ List.filter is_traffic (new_events (DemoHost.disk Runs.src) w') = []
       /\ ShowErrorMessage
            (lit "Cloud compiler error: "
             ++ explain (lit "http://localhost:3000")
                  (message_of (enoent (lit "open") MoreRuns.missing)))
          ∈ new_events (DemoHost.disk Runs.src) w'.
Proof.
  split; [vm_compute; reflexivity|].
  apply (@api_missing_source Runs.linux Runs.ok_env MoreRuns.missing (lit "1 2")
           DemoHost.python (DemoHost.disk Runs.src) (lit "http://localhost:3000")).
  - reflexivity.
  - reflexivity.
  - vm_compute. eauto.
  - vm_compute. reflexivity.
  - vm_compute. discriminate.
  - reflexivity.
Defined.

(** X5 at a transport that reports [ECONNREFUSED]. *)
Lemma api_network_failure_witness :
  fetch_result Runs.refused_env = FetchRejects MoreRuns.refused
  /\ exists r w',
       @compileAndRunViaApi Runs.linux Runs.refused_env Runs.src (lit "1 2")
         DemoHost.python (DemoHost.disk Runs.src) = (inl r, w')
       /\ code r = Some 1
       /\ stdout r = VStr []
       /\ stderr r
          = VStr (explain (lit "http://localhost:3000") (message_of MoreRuns.refused))
       /\ JudgeViewMessage (lit "compiling-stop") ∈ new_events (DemoHost.disk Runs.src) w'
       /\ ShowErrorMessage
            (lit "Cloud compiler error: "
             ++ explain (lit "http://localhost:3000") (message_of MoreRuns.refused))
          ∈ new_events (DemoHost.disk Runs.src) w'.
Proof.
  split; [reflexivity|].
  apply (@api_network_failure Runs.linux Runs.refused_env Runs.src (lit "1 2")
           DemoHost.python (DemoHost.disk Runs.src) (lit "http://localhost:3000")
           MoreRuns.refused).
  - reflexivity.
  - reflexivity.
  - vm_compute. eauto.
  - vm_compute. eauto.
  - reflexivity.
  - reflexivity.
Defined.

(** X6 at an answer that is a page, not JSON. *)
Lemma api_2xx_unusable_body_witness :
  response_ok MoreRuns.html = true
  /\ exists r w',
       @compileAndRunViaApi Runs.linux MoreRuns.html_env Runs.src (lit "1 2")
         DemoHost.python (DemoHost.disk Runs.src) = (inl r, w')
       /\ code r = Some 1 /\ stdout r = VStr []
       /\ stderr r = VStr (explain (lit "http://localhost:3000") (lit "Unexpected token")).
Proof.
  split; [reflexivity|].
  apply (@api_2xx_unusable_body Runs.linux MoreRuns.html_env Runs.src (lit "1 2")
           DemoHost.python (DemoHost.disk Runs.src) (lit "http://localhost:3000")
           MoreRuns.html).
  - reflexivity.
  - reflexivity.
  - vm_compute. eauto.
  - vm_compute. eauto.
  - reflexivity.
  - reflexivity.
  - reflexivity.
Defined.

(** X7 at a transport that reports [ECONNREFUSED]. *)
Lemma api_connection_refused_witness :
  includes (lit "ECONNREFUSED") (message_of MoreRuns.refused) = true
  /\ exists r w' text,
       @compileAndRunViaApi Runs.linux Runs.refused_env Runs.src (lit "1 2")
         DemoHost.python (DemoHost.disk Runs.src) = (inl r, w')
       /\ code r = Some 1
       /\ stderr r = VStr text
       /\ text = lit "Cannot connect to cloud compiler API at " ++ lit "http://localhost:3000"
                 ++ lit ". Please check if the server is running and the URL is correct."
       /\ includes (lit "http://localhost:3000") text = true.
Proof.
  split; [vm_compute; reflexivity|].
  apply (@api_connection_refused Runs.linux Runs.refused_env Runs.src (lit "1 2")
           DemoHost.python (DemoHost.disk Runs.src) (lit "http://localhost:3000")
           MoreRuns.refused).
  - reflexivity.
  - reflexivity.
  - vm_compute. eauto.
  - vm_compute. eauto.
  - reflexivity.
  - vm_compute. reflexivity.
  - reflexivity.
Defined.

(** X8 at the missing file [/w/timeout.py]. *)
Lemma api_missing_source_named_timeout_witness :
  includes (lit "timeout") MoreRuns.missing_timeout = true
  /\ exists r w',
       @compileAndRunViaApi Runs.linux Runs.ok_env MoreRuns.missing_timeout (lit "1 2")
         DemoHost.python (DemoHost.disk Runs.src) = (inl r, w')
       /\ code r = Some 1
       /\ stderr r = VStr (lit "Request to cloud compiler API timed out. Please try again.")
       /\ List.filter is_traffic (new_events (DemoHost.disk Runs.src) w') = [].
Proof.
  split; [vm_compute; reflexivity|].
  apply (@api_missing_source_named_timeout Runs.linux Runs.ok_env MoreRuns.missing_timeout
           (lit "1 2") DemoHost.python (DemoHost.disk Runs.src)
           (lit "http://localhost:3000")).
  - reflexivity.
  - reflexivity.
  - vm_compute. eauto.
  - vm_compute. reflexivity.
  - vm_compute. discriminate.
  - vm_compute. reflexivity.
  - vm_compute. reflexivity.
  - reflexivity.
Defined.

Section ApiClientFrame.
Context `{H : Host} (env : Env).

(** X9. The elapsed time of a returned result is the last reading of the
    clock the call made minus its first one, whatever the clock does; with
    a clock that does not go backwards it is not negative. *)
Theorem api_elapsed_time (srcPath input : jsstring) (language : Language)
    (w w' : World) (r : Run) :
  compileAndRunViaApi env srcPath input language w = (inl r, w') ->
  time r = clock env (pred (clock_reads w')) - clock env (clock_reads w)
  /\ ((forall n, clock env n <= clock env (S n)) -> 0 <= time r).
Proof.
  api_unfold. repeat break_match.
  all: try discriminate.
  all: intros [= <- <-]; cbn [time clock_reads pred].
  all: split; [reflexivity|intros Hmono].
  all: pose proof (Hmono (clock_reads w));
    pose proof (Hmono (S (clock_reads w)));
    pose proof (Hmono (S (S (clock_reads w))));
    pose proof (Hmono (S (S (S (clock_reads w))))); lia.
Qed.

(** X10. While no other task touches the disk, a call changes nothing on
    it but the temporary file it names after the clock: every other path
    holds after the call what it held before, and a call without payload
    leaves the whole disk as it was. *)
Theorem api_leaves_other_files (srcPath input : jsstring) (language : Language)
    (w : World) :
  (forall fs, fs_while_fetching env fs = fs) ->
  (forall fs, fs_while_reading_body env fs = fs) ->
  (forall p, p <> temp_path env (clock env (S (clock_reads w))) ->
             files (snd (compileAndRunViaApi env srcPath input language w)) !! p
             = files w !! p)
  /\ (trim input = [] ->
      files (snd (compileAndRunViaApi env srcPath input language w)) = files w).
Proof.
  intros Hf Hb. unfold temp_path. api_unfold. repeat break_match.
  all: leaf_absurd.
  all: cbn [files]; rewrite ?Hb, ?Hf.
  all: repeat match goal with
         | E : _ && _ = true |- _ => apply payload_guard in E
         | E : _ && _ = false |- _ => apply no_payload_guard in E
         end.
  all: split; [intros p Hp | intros Hblank; try done].
  all: rewrite ?lookup_delete_ne, ?lookup_insert_ne by (intros ?; apply Hp; congruence).
  all: try reflexivity.

Qed.

End ApiClientFrame.

(** X9 at the successful run. *)
Lemma api_elapsed_time_witness :
  @compileAndRunViaApi Runs.linux Runs.ok_env Runs.src (lit "1 2") DemoHost.python
    (DemoHost.disk Runs.src) = (inl RunFacts.ok_run, snd Runs.ok_call)
  /\ time RunFacts.ok_run
     = clock Runs.ok_env (pred (clock_reads (snd Runs.ok_call)))
       - clock Runs.ok_env (clock_reads (DemoHost.disk Runs.src))
  /\ ((forall n, clock Runs.ok_env n <= clock Runs.ok_env (S n)) ->
      0 <= time RunFacts.ok_run).
Proof.
  split; [vm_compute; reflexivity|].
  apply (@api_elapsed_time Runs.linux Runs.ok_env Runs.src (lit "1 2") DemoHost.python
           (DemoHost.disk Runs.src) (snd Runs.ok_call) RunFacts.ok_run).
  vm_compute. reflexivity.
Defined.

(** X10 at the successful run. *)
Lemma api_leaves_other_files_witness :
  (forall p,
     p <> @temp_path Runs.linux Runs.ok_env
            (clock Runs.ok_env (S (clock_reads (DemoHost.disk Runs.src)))) ->
     files (snd (@compileAndRunViaApi Runs.linux Runs.ok_env Runs.src (lit "1 2")
                   DemoHost.python (DemoHost.disk Runs.src))) !! p
     = files (DemoHost.disk Runs.src) !! p)
  /\ (trim (lit "1 2") = [] ->
      files (snd (@compileAndRunViaApi Runs.linux Runs.ok_env Runs.src (lit "1 2")
                    DemoHost.python (DemoHost.disk Runs.src)))
      = files (DemoHost.disk Runs.src)).
Proof.
  apply (@api_leaves_other_files Runs.linux Runs.ok_env Runs.src (lit "1 2")
           DemoHost.python (DemoHost.disk Runs.src)).
  - intros fs. reflexivity.
  - intros fs. reflexivity.
Defined.

(** * Further properties of local execution *)

Lemma chunks_out_snoc (p : nat) (tr : list label) (l : label) :
  chunks_out p (tr ++ [l])
  = chunks_out p tr ++ match l with
                       | StdoutData q data => if bool_decide (q = p) then data else []
                       | _ => []
                       end.
Proof.
  induction tr as [|l0 tr IH]; cbn [app chunks_out].
  - destruct l; try reflexivity. destruct (bool_decide _); [apply app_nil_r | done].
  - destruct l0; try exact IH. destruct (bool_decide _); [|exact IH].
    rewrite IH. apply app_assoc.
Qed.

Lemma chunks_err_snoc (p : nat) (tr : list label) (l : label) :
  chunks_err p (tr ++ [l])
  = chunks_err p tr ++ match l with
                       | StderrData q data => if bool_decide (q = p) then data else []
                       | _ => []
                       end.
Proof.
  induction tr as [|l0 tr IH]; cbn [app chunks_err].
  - destruct l; try reflexivity. destruct (bool_decide _); [apply app_nil_r | done].
  - destruct l0; try exact IH. destruct (bool_decide _); [|exact IH].
    rewrite IH. apply app_assoc.
Qed.

Lemma step_keeps_calls (l : label) (s s' : System) (p : nat) :
  step l s = Some s' -> is_Some (calls s !! p) -> is_Some (calls s' !! p).
Proof.
  intros Hs Hc. destruct l; step_cases Hs; cbn [calls]; try exact Hc.
  all: destruct (decide (p0 = p)) as [->|Hne];
    [rewrite lookup_insert_eq; eauto | rewrite lookup_insert_ne by done; exact Hc].
Qed.

Lemma no_call_no_chunks (tr : list label) :
  forall s p,
    run tr initial = Some s -> calls s !! p = None ->
    chunks_out p tr = [] /\ chunks_err p tr = [].
Proof.
  induction tr as [|l tr IH] using rev_ind; intros s p; [done|].
  rewrite run_snoc. destruct (run tr initial) as [s1|] eqn:Hr; cbn; [|discriminate].
  intros Hs Hc. rewrite chunks_out_snoc, chunks_err_snoc.
  assert (Hc1 : calls s1 !! p = None).
  { destruct (calls s1 !! p) eqn:E; [|done].
    destruct (step_keeps_calls _ _ _ p Hs) as [c' Hc']; [eauto|]. congruence. }
  destruct (IH s1 p eq_refl Hc1) as [-> ->].
  destruct l; try done.
  - destruct (decide (p0 = p)) as [->|Hne];
      [|rewrite bool_decide_eq_false_2 by done; done].
    unfold step in Hs. rewrite Hc1 in Hs. discriminate.
  - destruct (decide (p0 = p)) as [->|Hne];
      [|rewrite bool_decide_eq_false_2 by done; done].
    unfold step in Hs. rewrite Hc1 in Hs. discriminate.
Qed.

Lemma captured_output (tr : list label) :
  forall s p c,
    run tr initial = Some s -> calls s !! p = Some c ->
    stdout (result c) = VStr (chunks_out p tr)
    /\ stderr (result c) = VStr (chunks_err p tr).
Proof.
  induction tr as [|l tr IH] using rev_ind; intros s p c.
  - intros [= <-]. cbn [initial calls]. rewrite lookup_empty. discriminate.
  - rewrite run_snoc. destruct (run tr initial) as [s1|] eqn:Hr; cbn; [|discriminate].
    intros Hs Hc. rewrite chunks_out_snoc, chunks_err_snoc.
    specialize (IH s1 p).
    destruct l; step_cases Hs; cbn [calls] in Hc.
    all: try (rewrite app_nil_r; rewrite app_nil_r; eapply IH; [reflexivity|exact Hc]).
    all: destruct (decide (p0 = p)) as [->|Hne];
      [rewrite lookup_insert_eq in Hc; injection Hc as <-;
       rewrite ?bool_decide_eq_true_2 by done
      |rewrite lookup_insert_ne in Hc by done;
       rewrite ?bool_decide_eq_false_2 by done;
       rewrite ?app_nil_r; eapply IH; [reflexivity|exact Hc]].
    all: cbn [result stdout stderr]; rewrite ?app_nil_r.
    all: try match goal with
           | E : calls _ !! _ = Some ?c0 |- _ =>
               destruct (IH c0 eq_refl E) as [-> ->]
           end.
    all: try (cbn [append_data]; split; reflexivity).
    all: match goal with
         | E : calls _ !! _ = None |- _ =>
             destruct (no_call_no_chunks _ _ _ Hr E) as [-> ->]
         end; split; reflexivity.
Qed.

(** X11. The result of a local call holds every chunk its process wrote,
    in the order of arrival: [stdout] is the concatenation of all chunks
    of standard output and [stderr] of all chunks of standard error,
    whatever else happened in between (the timer, events of other
    processes, [killRunning]). *)
Theorem local_output_is_all_chunks (tr : list label) (s : System) (p : nat) (r : Run) :
  run tr initial = Some s ->
  outcome_of p s = Some r ->
  stdout r = VStr (chunks_out p tr) /\ stderr r = VStr (chunks_err p tr).
Proof.
  intros Hr. unfold outcome_of.
  destruct (calls s !! p) as [c|] eqn:Hc; cbn; [|discriminate].
  destruct (resolved c); [|discriminate]. intros [= <-].
  exact (captured_output tr s p c Hr Hc).
Qed.

(** X12. The flag [timeOut] of a result says whether the timer of that
    call fired: it is true exactly when the event of the timer of this
    call is among the events of the run, and false for a call whose
    process ended in time, however it ended. *)
Theorem local_timeout_flag_iff_timer_fired (tr : list label) (s : System) (p : nat)
    (r : Run) :
  run tr initial = Some s ->
  outcome_of p s = Some r ->
  timeOut r = existsb (is_killer p) tr.
Proof.
  intros Hr Ho. pose proof (run_timed_out_eq _ _ _ p Hr) as Ht.
  unfold timed_out in Ht. cbn [initial calls] in Ht. rewrite lookup_empty in Ht.
  unfold outcome_of in Ho. destruct (calls s !! p) as [c|]; cbn in Ho; [|discriminate].
  destruct (resolved c); [|discriminate]. injection Ho as <-. exact Ht.
Qed.

(** X13. A local call resolves when, and only when, the [exit] or the
    [error] event of its process has been delivered: neither output, nor
    the timer, nor [killRunning], nor any event of another process
    resolves it. *)
Theorem local_resolves_iff_process_ended (tr : list label) (s : System) (p : nat) :
  run tr initial = Some s ->
  is_Some (outcome_of p s) <-> existsb (is_end p) tr = true.
Proof.
  intros Hr. pose proof (run_resolved_eq _ _ _ p Hr) as He.
  unfold is_resolved in He. cbn [initial calls] in He. rewrite lookup_empty in He.
  cbn [orb] in He. rewrite <- He. unfold outcome_of.
  destruct (calls s !! p) as [c|]; cbn.
  - destruct (resolved c); split; eauto; try discriminate. intros [? ?]; discriminate.
  - split; [intros [? ?]; discriminate | discriminate].
Qed.

Lemma step_rejected (l : label) (s s' : System) (p : nat) (c' : Call) :
  step l s = Some s' -> calls s' !! p = Some c' ->
  match calls s !! p with
  | Some c => rejected c' = rejected c
  | None => rejected c' = is_thrown p l
  end.
Proof.
  intros Hs Hc. destruct l; step_cases Hs; cbn [calls is_thrown] in *.
  all: try (rewrite Hc; reflexivity).
  all: destruct (decide (p0 = p)) as [->|Hne];
    [rewrite lookup_insert_eq in Hc; injection Hc as <-;
     rewrite ?bool_decide_eq_true_2 by done
    |rewrite lookup_insert_ne in Hc by done; rewrite Hc; reflexivity].
  all: repeat match goal with E : calls _ !! _ = _ |- _ => rewrite E; clear E end.
  all: cbn [rejected]; congruence.
Qed.

Lemma no_call_no_thrown (tr : list label) :
  forall s p,
    run tr initial = Some s -> calls s !! p = None ->
    existsb (is_thrown p) tr = false.
Proof.
  induction tr as [|l tr IH] using rev_ind; intros s p; [done|].
  rewrite run_snoc. destruct (run tr initial) as [s1|] eqn:Hr; cbn; [|discriminate].
  intros Hs Hc. rewrite existsb_app. cbn [existsb]. rewrite orb_false_r.
  assert (Hc1 : calls s1 !! p = None).
  { destruct (calls s1 !! p) eqn:E; [|done].
    destruct (step_keeps_calls _ _ _ p Hs) as [c' Hc']; [eauto|]. congruence. }
  rewrite (IH s1 p eq_refl Hc1). cbn [orb].
  destruct l; try reflexivity. cbn [is_thrown].
  destruct (decide (p0 = p)) as [->|Hne]; [|by apply bool_decide_eq_false_2].
  unfold step in Hs. rewrite Hc1 in Hs. injection Hs as <-.
  cbn [calls] in Hc. rewrite lookup_insert_eq in Hc. discriminate.
Qed.

(** A call was rejected exactly when its [spawn] threw. *)
Lemma rejected_iff_thrown (tr : list label) :
  forall s p c,
    run tr initial = Some s -> calls s !! p = Some c ->
    rejected c = existsb (is_thrown p) tr.
Proof.
  induction tr as [|l tr IH] using rev_ind; intros s p c.
  - intros [= <-]. cbn [initial calls]. rewrite lookup_empty. discriminate.
  - rewrite run_snoc. destruct (run tr initial) as [s1|] eqn:Hr; cbn; [|discriminate].
    intros Hs Hc. rewrite existsb_app. cbn [existsb]. rewrite orb_false_r.
    pose proof (step_rejected _ _ _ p c Hs Hc) as He.
    destruct (calls s1 !! p) as [c1|] eqn:Hc1.
    + rewrite He, (IH s1 p c1 eq_refl Hc1).
      destruct l; cbn [is_thrown]; rewrite ?orb_false_r; try reflexivity.
      destruct (decide (p0 = p)) as [->|Hne];
        [|rewrite bool_decide_eq_false_2 by done; by rewrite orb_false_r].
      unfold step in Hs. rewrite Hc1 in Hs. discriminate.
    + rewrite He, (no_call_no_thrown tr s1 p Hr Hc1). reflexivity.
Qed.

(** X14. The timer of a call fires at most once and never for a resolved
    call: in every run, before the event of the timer there is no earlier
    firing and no [exit] or [error] event of the process, and after it
    the timer never fires again. When it fires the call is pending, or,
    if [spawn] threw, already rejected: the timer was set before [spawn]
    and only the handlers of [exit] and [error] clear it. *)
Theorem local_timer_fires_once_unresolved (tr1 tr2 : list label) (s : System)
    (p : nat) :
  run (tr1 ++ KillerFires p :: tr2) initial = Some s ->
  existsb (is_killer p) tr1 = false
  /\ existsb (is_end p) tr1 = false
  /\ existsb (is_killer p) tr2 = false
  /\ exists s1 c,
       run tr1 initial = Some s1
       /\ calls s1 !! p = Some c
       /\ resolved c = false
       /\ rejected c = existsb (is_thrown p) tr1.
Proof.
  rewrite run_app. destruct (run tr1 initial) as [s1|] eqn:H1;
    cbn [mbind option_bind run]; [|discriminate].
  destruct (step (KillerFires p) s1) as [s2|] eqn:H2;
    cbn [mbind option_bind]; [|discriminate].
  intros H3.
  assert (Hbefore : existsb (fun l => is_killer p l || is_end p l) tr1 = false).
  { destruct (existsb _ tr1) eqn:Hx; [|done].
    destruct (run_spends_timer _ _ _ p H1 Hx) as (c & Hc & Hp).
    unfold step in H2. rewrite Hc in H2. cbn in H2. rewrite Hp in H2. discriminate. }
  assert (Hsplit : existsb (is_killer p) tr1 = false /\ existsb (is_end p) tr1 = false).
  { clear -Hbefore. induction tr1 as [|l tr1 IH]; cbn [existsb] in *; [done|].
    apply orb_false_iff in Hbefore as [Hl Ht]. apply orb_false_iff in Hl as [Hk He].
    destruct (IH Ht) as [Hk' He']. rewrite Hk, He, Hk', He'. done. }
  destruct Hsplit as [Hk He]. rewrite Hk, He. repeat split.
  - eapply spent_timer_is_silent; [exact H3|].
    eapply step_spends_timer; [exact H2|]. cbn. by rewrite bool_decide_eq_true_2.
  - destruct (calls s1 !! p) as [c|] eqn:Hc;
      [|unfold step in H2; rewrite Hc in H2; discriminate].
    exists s1, c. split; [reflexivity|]. split; [exact Hc|]. split.
    + pose proof (run_resolved_eq _ _ _ p H1) as Hr. unfold is_resolved in Hr.
      cbn [initial calls] in Hr. rewrite lookup_empty, Hc, He in Hr. exact Hr.
    + exact (rejected_iff_thrown tr1 s1 p c H1 Hc).
Qed.

(** Only the events of a process touch the state of its call. *)
Lemma step_other_call (l : label) (s s' : System) (p : nat) :
  step l s = Some s' -> label_pid l <> Some p -> calls s' !! p = calls s !! p.
Proof.
  intros Hs Hl. destruct l; cbn [label_pid] in Hl; step_cases Hs; cbn [calls];
    try reflexivity.
  all: rewrite lookup_insert_ne by congruence; reflexivity.
Qed.

(** X15. Each call owns its result: a run in which no event belongs to the
    process of a call leaves that call, its result, its timer and its
    state of resolution as they were, whatever happens to other processes
    and however often [killRunning] is called. *)
Theorem local_calls_do_not_interfere (tr : list label) (s s' : System) (p : nat) :
  run tr s = Some s' ->
  Forall (fun l => label_pid l <> Some p) tr ->
  calls s' !! p = calls s !! p.
Proof.
  revert s. induction tr as [|l tr IH]; intros s; cbn [run].
  - intros [= <-]. done.
  - destruct (step l s) as [s1|] eqn:E; cbn; [|discriminate].
    intros Hr Hall. apply Forall_cons in Hall as [Hl Hall].
    rewrite (IH _ Hr Hall). eapply step_other_call; eassumption.
Qed.

(** ** The registry and [killRunning] *)

Lemma elem_of_removelast (l : list nat) (x : nat) : x ∈ removelast l -> x ∈ l.
Proof.
  induction l as [|a l IH]; cbn [removelast]; [done|].
  destruct l as [|b l]; [intros Hx; by apply elem_of_nil in Hx|].
  rewrite !(elem_of_cons _ x a). intros [->|Hx]; [by left | right; by apply IH].
Qed.

Lemma NoDup_removelast (l : list nat) : NoDup l -> NoDup (removelast l).
Proof.
  induction l as [|a l IH]; cbn [removelast]; [done|].
  destruct l as [|b l]; [intros _; constructor|].
  intros Hn. apply NoDup_cons in Hn as [Ha Hn]. apply NoDup_cons. split.
  - intros Hx. apply Ha. by apply elem_of_removelast.
  - by apply IH.
Qed.

Lemma registry_sound_initial : registry_sound initial.
Proof.
  split; [constructor|]. intros p Hp. cbn [initial runningBinaries] in Hp.
  by apply elem_of_nil in Hp.
Qed.

Lemma step_registry_sound (l : label) (s s' : System) :
  step l s = Some s' -> registry_sound s -> registry_sound s'.
Proof.
  intros Hs [Hnd Hin]. destruct l; step_cases Hs; unfold registry_sound;
    cbn [runningBinaries calls pop].
  all: try (split; [exact Hnd | exact Hin]).
  all: try (split; [exact Hnd|]; intros q Hq; specialize (Hin q Hq);
            destruct (decide (p = q)) as [->|Hne];
            [rewrite lookup_insert_eq; eauto | by rewrite lookup_insert_ne]).
  all: try (split; [by apply NoDup_removelast|]; intros q Hq;
            apply elem_of_removelast in Hq; specialize (Hin q Hq);
            destruct (decide (p = q)) as [->|Hne];
            [rewrite lookup_insert_eq; eauto | by rewrite lookup_insert_ne]).
  all: split;
    [apply NoDup_app; split; [exact Hnd|]; split; [|apply NoDup_singleton];
     intros q Hq Hq'; apply list_elem_of_singleton in Hq' as ->;
     destruct (Hin _ Hq); congruence
    |intros q Hq; apply elem_of_app in Hq as [Hq|Hq];
     [specialize (Hin q Hq); destruct (decide (p = q)) as [->|Hne];
      [rewrite lookup_insert_eq; eauto | by rewrite lookup_insert_ne]
     |apply list_elem_of_singleton in Hq as ->; rewrite lookup_insert_eq; eauto]].
Qed.

Lemma reachable_registry_sound (tr : list label) (s : System) :
  run tr initial = Some s -> registry_sound s.
Proof.
  intros Hr. eapply (run_invariant registry_sound); [|exact Hr|].
  - apply step_registry_sound.
  - apply registry_sound_initial.
Qed.


Lemma kill_running_in (p q : nat) (ps : gmap nat Proc) :
  running_in (kill p ps) q = running_in ps q.
Proof.
  unfold running_in. pose proof (kill_pstate p q ps) as Hk.
  destruct (kill p ps !! q), (ps !! q); cbn in Hk; try discriminate; [|done].
  injection Hk as ->. done.
Qed.

Lemma kill_signals_exact (p q : nat) (ps : gmap nat Proc) :
  signals_in (kill p ps) q
  = signals_in ps q ++ if bool_decide (q = p) && running_in ps q
                       then [lit "SIGTERM"] else [].
Proof.
  unfold signals_in, running_in. rewrite kill_lookup.
  destruct (decide (p = q)) as [->|Hne].
  - rewrite bool_decide_eq_true_2 by done. cbn [andb].
    destruct (ps !! q) as [pr|]; cbn; [|done].
    unfold deliver_sigterm. destruct (pstate pr); cbn; by rewrite ?app_nil_r.
  - rewrite bool_decide_eq_false_2 by congruence. cbn [andb]. by rewrite app_nil_r.
Qed.

Lemma killall_signals_exact (l : list nat) (q : nat) (ps : gmap nat Proc) :
  NoDup l ->
  signals_in (foldl (fun ps p => kill p ps) ps l) q
  = signals_in ps q ++ if bool_decide (q ∈ l) && running_in ps q
                       then [lit "SIGTERM"] else [].
Proof.
  revert ps. induction l as [|p l IH]; intros ps Hnd; cbn [foldl].
  - rewrite bool_decide_eq_false_2 by apply not_elem_of_nil. by rewrite app_nil_r.
  - apply NoDup_cons in Hnd as [Hp Hnd]. rewrite (IH _ Hnd).
    rewrite kill_running_in, kill_signals_exact.
    destruct (decide (q = p)) as [->|Hne].
    + rewrite (bool_decide_eq_false_2 (p ∈ l)) by done.
      rewrite !bool_decide_eq_true_2 by (done || apply list_elem_of_here).
      cbn [andb]. by rewrite app_nil_r.
    + rewrite (bool_decide_eq_false_2 (q = p)) by done. cbn [andb].
      rewrite app_nil_r. f_equal.
      destruct (decide (q ∈ l)) as [Hin|Hout].
      * rewrite !bool_decide_eq_true_2; [done | by apply list_elem_of_further | done].
      * rewrite !bool_decide_eq_false_2; [done | | done].
        rewrite elem_of_cons. intros [?|?]; done.
Qed.

(** X16. [killRunning] sends [SIGTERM] once to every process that is in
    the registry and running, and to no other; it leaves the registry, the
    calls and their results as they are, and resolves nothing: a call ends
    only through the [exit] or [error] event of its process. *)
Theorem local_killRunning_effect (tr : list label) (s : System) :
  run tr initial = Some s ->
  exists s',
    step KillRunning s = Some s'
    /\ runningBinaries s' = runningBinaries s
    /\ calls s' = calls s
    /\ shown s' = shown s
    /\ forall p,
         is_running p s' = is_running p s
         /\ signals_of p s'
            = signals_of p s ++ if bool_decide (p ∈ runningBinaries s) && is_running p s
                                then [lit "SIGTERM"] else [].
Proof.
  intros Hr. destruct (reachable_registry_sound _ _ Hr) as [Hnd _].
  eexists. split; [reflexivity|]. cbn [runningBinaries calls shown].
  repeat split.
  - apply is_running_pstate. cbn [procs]. apply killall_pstate.
  - exact (killall_signals_exact (runningBinaries s) p (procs s) Hnd).
Qed.

(** X11 at a call that timed out after one chunk. *)
Lemma local_output_is_all_chunks_witness :
  run LocalRuns.timeout_trace initial = Some LocalRuns.timed_out_system
  /\ outcome_of 1 LocalRuns.timed_out_system = Some LocalRuns.timed_out_result
  /\ stdout LocalRuns.timed_out_result = VStr (chunks_out 1 LocalRuns.timeout_trace)
  /\ stderr LocalRuns.timed_out_result = VStr (chunks_err 1 LocalRuns.timeout_trace).
Proof.
  split; [vm_compute; reflexivity|]. split; [vm_compute; reflexivity|].
  apply (local_output_is_all_chunks LocalRuns.timeout_trace LocalRuns.timed_out_system 1
           LocalRuns.timed_out_result).
  - vm_compute. reflexivity.
  - vm_compute. reflexivity.
Defined.

(** X12 at a call that timed out. *)
Lemma local_timeout_flag_iff_timer_fired_witness :
  timeOut LocalRuns.timed_out_result = existsb (is_killer 1) LocalRuns.timeout_trace.
Proof.
  apply (local_timeout_flag_iff_timer_fired LocalRuns.timeout_trace
           LocalRuns.timed_out_system 1 LocalRuns.timed_out_result).
  - vm_compute. reflexivity.
  - vm_compute. reflexivity.
Defined.

(** X13 at a process that does not end on the signal. *)
Lemma local_resolves_iff_process_ended_witness :
  is_Some (outcome_of 1 LocalRuns.stubborn)
  <-> existsb (is_end 1) LocalRuns.stubborn_trace = true.
Proof.
  apply (local_resolves_iff_process_ended LocalRuns.stubborn_trace LocalRuns.stubborn 1).
  vm_compute. reflexivity.
Defined.

(** X14 at a call whose [spawn] threw. *)
Lemma local_timer_fires_once_unresolved_witness :
  existsb (is_killer 1) (take 1 MoreRuns.thrown_trace) = false
  /\ existsb (is_end 1) (take 1 MoreRuns.thrown_trace) = false
  /\ existsb (is_killer 1) (drop 2 MoreRuns.thrown_trace) = false
  /\ exists s1 c,
       run (take 1 MoreRuns.thrown_trace) initial = Some s1
       /\ calls s1 !! 1%nat = Some c
       /\ resolved c = false
       /\ rejected c = existsb (is_thrown 1) (take 1 MoreRuns.thrown_trace).
Proof.
  apply (local_timer_fires_once_unresolved (take 1 MoreRuns.thrown_trace)
           (drop 2 MoreRuns.thrown_trace)
           (default initial (run MoreRuns.thrown_trace initial)) 1).
  vm_compute. reflexivity.
Defined.

(** The run of that firing: the flag is set on a result that no caller
    holds, and no process is signalled. *)
Example timer_after_thrown_spawn :
  exists s c,
    run MoreRuns.thrown_trace initial = Some s
    /\ calls s !! 1%nat = Some c
    /\ rejected c = true /\ resolved c = false
    /\ timeOut (result c) = true
    /\ outcome_of 1 s = None
    /\ procs s = ∅ /\ runningBinaries s = [].
Proof.
  eexists _, _. split; [vm_compute; reflexivity|].
  split; [vm_compute; reflexivity|]. repeat split.
Qed.

(** X15 at a second call started beside the first. *)
Lemma local_calls_do_not_interfere_witness :
  run MoreRuns.second_start LocalRuns.started = Some MoreRuns.two_started
  /\ calls MoreRuns.two_started !! 1%nat = calls LocalRuns.started !! 1%nat.
Proof.
  split; [vm_compute; reflexivity|].
  apply (local_calls_do_not_interfere MoreRuns.second_start LocalRuns.started
           MoreRuns.two_started 1).
  - vm_compute. reflexivity.
  - unfold MoreRuns.second_start. repeat constructor; cbn; discriminate.
Defined.

(** X16 at one running process. *)
Lemma local_killRunning_effect_witness :
  exists s',
    step KillRunning LocalRuns.started = Some s'
    /\ runningBinaries s' = runningBinaries LocalRuns.started
    /\ calls s' = calls LocalRuns.started
    /\ shown s' = shown LocalRuns.started
    /\ forall p,
         is_running p s' = is_running p LocalRuns.started
         /\ signals_of p s'
            = signals_of p LocalRuns.started
              ++ if bool_decide (p ∈ runningBinaries LocalRuns.started)
                    && is_running p LocalRuns.started
                 then [lit "SIGTERM"] else [].
Proof.
  apply (local_killRunning_effect [Start 1 true (lit "python3") (lit "1 2") 1000]
           LocalRuns.started).
  vm_compute. reflexivity.
Defined.

(** * Further properties of the dispatcher *)

Lemma first_existing_first (w : World) (base : jsstring) (pre post : list jsstring)
    (ext : jsstring) :
  Forall (fun e => file_exists w (base ++ e) = false) pre ->
  file_exists w (base ++ ext) = true ->
  first_existing w base (pre ++ ext :: post) = base ++ ext.
Proof.
  intros Hpre He. induction Hpre as [|e pre He' _ IH]; cbn [app first_existing].
  - rewrite He. reflexivity.
  - rewrite He'. exact IH.
Qed.

Lemma first_existing_none (w : World) (base : jsstring) (exts : list jsstring) :
  Forall (fun e => file_exists w (base ++ e) = false) exts ->
  first_existing w base exts = base.
Proof.
  intros Hall. induction Hall as [|e exts He _ IH]; cbn [first_existing]; [done|].
  rewrite He. exact IH.
Qed.

Section SourceLookup.
Context `{H : Host} (env : Env).

(** X17. For a compiled language whose binary path has the extension
    [.bin], the remote branch looks the source up among the known
    extensions of the language in their order in the table: the first
    candidate that is on disk is the path handed to
    [compileAndRunViaApi]; when no candidate is on disk the lookup yields
    the bare base path. *)
Theorem dispatch_source_is_first_on_disk (language : Language)
    (binPath input : jsstring) (w : World) (pre post : list jsstring) (ext : jsstring) :
  url_blank (cloudCompilerApiUrl env) = false ->
  is_Some (mapLanguageToApi (name language)) ->
  skipCompile language = false ->
  path_extname binPath = lit ".bin" ->
  possibleExtensions (name language) = pre ++ ext :: post ->
  Forall (fun e => file_exists w (strip_bin_suffix binPath ++ e) = false) pre ->
  file_exists w (strip_bin_suffix binPath ++ ext) = true ->
  (runTestCase env language binPath input w).1.1
  = ViaApi (strip_bin_suffix binPath ++ ext)
      (compileAndRunViaApi env (strip_bin_suffix binPath ++ ext) input language w).1
  /\ (forall w0,
        Forall (fun e => file_exists w0 (strip_bin_suffix binPath ++ e) = false)
          (possibleExtensions (name language)) ->
        source_of_binary w0 language binPath = strip_bin_suffix binPath).
Proof.
  intros Hu Ht Hs He Hx Hpre Hext.
  assert (Hsrc : forall w0, source_of_binary w0 language binPath
                 = first_existing w0 (strip_bin_suffix binPath)
                     (possibleExtensions (name language))).
  { intros w0. unfold source_of_binary. rewrite Hs, He. reflexivity. }
  split.
  - assert (Hc : shouldUseCloudApi env language = true)
      by (apply shouldUseCloudApi_spec; done).
    unfold runTestCase. rewrite Hc, Hu, tag_missing_mapped.
    destruct Ht as [t Ht]. rewrite Ht. rewrite bool_decide_eq_false_2 by done.
    cbn [negb andb]. rewrite Hsrc, Hx, (first_existing_first _ _ _ _ _ Hpre Hext), Hext.
    cbn [negb]. destruct (compileAndRunViaApi _ _ _ _ _). reflexivity.
  - intros w0 Hall. rewrite Hsrc. by apply first_existing_none.
Qed.

End SourceLookup.

(** X17 at a binary built from [/w/a.cc]. *)
Lemma dispatch_source_is_first_on_disk_witness :
  (@runTestCase DispatchRuns.win32 DispatchRuns.api DemoHost.cpp MoreRuns.binary
     (lit "1 2") MoreRuns.cc_disk).1.1
  = ViaApi (strip_bin_suffix MoreRuns.binary ++ lit ".cc")
      (@compileAndRunViaApi DispatchRuns.win32 DispatchRuns.api
         (strip_bin_suffix MoreRuns.binary ++ lit ".cc") (lit "1 2") DemoHost.cpp
         MoreRuns.cc_disk).1
  /\ (forall w0,
        Forall (fun e => file_exists w0 (strip_bin_suffix MoreRuns.binary ++ e) = false)
          (possibleExtensions (name DemoHost.cpp)) ->
        @source_of_binary DispatchRuns.win32 w0 DemoHost.cpp MoreRuns.binary
        = strip_bin_suffix MoreRuns.binary).
Proof.
  apply (@dispatch_source_is_first_on_disk DispatchRuns.win32 DispatchRuns.api
           DemoHost.cpp MoreRuns.binary (lit "1 2") MoreRuns.cc_disk
           [lit ".cpp"] [lit ".cxx"] (lit ".cc")).
  - reflexivity.
  - vm_compute. eauto.
  - reflexivity.
  - vm_compute. reflexivity.
  - vm_compute. reflexivity.
  - repeat constructor.
  - vm_compute. reflexivity.
Defined.

(** * Properties of the quick run *)

Lemma replace_all_flat_map (c : N) (rep : jsstring) (f : N -> jsstring) (s : jsstring) :
  replace_all c rep (flat_map f s) = flat_map (fun x => replace_all c rep (f x)) s.
Proof.
  unfold replace_all. induction s as [|x s IH]; cbn [flat_map]; [done|].
  rewrite flat_map_app, IH. reflexivity.
Qed.

Lemma flat_map_singleton (s : jsstring) : flat_map (fun x => [x]) s = s.
Proof. induction s as [|x s IH]; cbn; [done | by rewrite IH]. Qed.

Lemma flat_map_ext_all {A B} (f g : A -> list B) (s : list A) :
  (forall x, f x = g x) -> flat_map f s = flat_map g s.
Proof. intros Hfg. induction s as [|x s IH]; cbn; [done | by rewrite Hfg, IH]. Qed.

(** The six replacements of [escapeForEcho], applied one after the other,
    never touch a character that an earlier one inserted. *)
Lemma escapeForEcho_chars (str : jsstring) :
  escapeForEcho str = [quote] ++ flat_map echo_escape str ++ [quote].
Proof.
  unfold escapeForEcho. cbv zeta. f_equal. f_equal.
  rewrite <- (flat_map_singleton str) at 1.
  rewrite !replace_all_flat_map. apply flat_map_ext_all. intros x.
  unfold echo_escape.
  destruct (N.eqb_spec x caret); [subst x; reflexivity|].
  destruct (N.eqb_spec x ampersand); [subst x; reflexivity|].
  destruct (N.eqb_spec x bar); [subst x; reflexivity|].
  destruct (N.eqb_spec x less); [subst x; reflexivity|].
  destruct (N.eqb_spec x greater); [subst x; reflexivity|].
  destruct (N.eqb_spec x quote); [subst x; reflexivity|].
  cbn [orb]. unfold replace_all. cbn [flat_map app].
  repeat match goal with
         | Hn : x <> ?c |- _ =>
             rewrite (proj2 (N.eqb_neq x c) Hn); clear Hn; cbn [flat_map app]
         end.
  reflexivity.
Qed.

Lemma escapeForTerminal_chars (str : jsstring) :
  escapeForTerminal str = flat_map terminal_escape str.
Proof.
  unfold escapeForTerminal.
  rewrite <- (flat_map_singleton str) at 1.
  rewrite !replace_all_flat_map. apply flat_map_ext_all. intros x.
  unfold terminal_escape.
  destruct (N.eqb_spec x backslash); [subst x; reflexivity|].
  destruct (N.eqb_spec x quote); [subst x; reflexivity|].
  destruct (N.eqb_spec x dollar); [subst x; reflexivity|].
  destruct (N.eqb_spec x backtick); [subst x; reflexivity|].
  cbn [orb]. unfold replace_all. cbn [flat_map app].
  repeat match goal with
         | Hn : x <> ?c |- _ =>
             rewrite (proj2 (N.eqb_neq x c) Hn); clear Hn; cbn [flat_map app]
         end.
  reflexivity.
Qed.

(** X18. [escapeForTerminal] escapes every character of its argument on
    its own (a backslash is set before each backslash, double quote,
    dollar and backtick; the four replacements never touch a character
    that an earlier one inserted), and it loses nothing: reading the
    result back, with each backslash protecting the character after it,
    gives the argument again; so two different strings are never escaped
    to the same text. *)
Theorem escapeForTerminal_round_trip (str : jsstring) :
  escapeForTerminal str = flat_map terminal_escape str
  /\ unescape_backslash (escapeForTerminal str) = str
  /\ forall other, escapeForTerminal other = escapeForTerminal str -> other = str.
Proof.
  split; [apply escapeForTerminal_chars|].
  assert (Hrt : forall s, unescape_backslash (escapeForTerminal s) = s).
  { intros s. rewrite escapeForTerminal_chars.
    induction s as [|x s IH]; cbn [flat_map]; [done|].
    unfold terminal_escape at 1.
    destruct (N.eqb_spec x backslash) as [->|Hb]; cbn [orb app unescape_backslash].
    - change (backslash =? backslash)%N with true. cbn. by rewrite IH.
    - destruct ((x =? quote)%N || (x =? dollar)%N || (x =? backtick)%N);
        cbn [app unescape_backslash].
      + change (backslash =? backslash)%N with true. cbn. by rewrite IH.
      + rewrite (proj2 (N.eqb_neq _ _) Hb). by rewrite IH. }
  split; [apply Hrt|].
  intros other He. rewrite <- (Hrt other), He. apply Hrt.
Qed.

Lemma echo_escape_head (s : jsstring) (y : N) (r : jsstring) :
  flat_map echo_escape s = y :: r -> y <> quote.
Proof.
  destruct s as [|x s]; cbn [flat_map]; [discriminate|].
  unfold echo_escape.
  destruct ((x =? caret)%N || (x =? ampersand)%N || (x =? bar)%N
            || (x =? less)%N || (x =? greater)%N).
  - intros [= <- _]. discriminate.
  - destruct (N.eqb_spec x quote).
    + intros [= <- _]. discriminate.
    + intros [= <- _]. assumption.
Qed.

Lemma unescape_echo_escape (s : jsstring) :
  unescape_echo (flat_map echo_escape s) = s.
Proof.
  induction s as [|x s IH]; cbn [flat_map]; [done|].
  unfold echo_escape at 1.
  destruct ((x =? caret)%N || (x =? ampersand)%N || (x =? bar)%N
            || (x =? less)%N || (x =? greater)%N) eqn:Hs.
  - cbn [app unescape_echo]. change (caret =? caret)%N with true. cbn. by rewrite IH.
  - apply orb_false_iff in Hs as [Hs _]. apply orb_false_iff in Hs as [Hs _].
    apply orb_false_iff in Hs as [Hs _]. apply orb_false_iff in Hs as [Hc _].
    destruct (N.eqb_spec x quote) as [->|Hq].
    + cbn [app unescape_echo]. change (backslash =? caret)%N with false.
      change (backslash =? backslash)%N with true.
      change (quote =? quote)%N with true. cbn. by rewrite IH.
    + cbn [app unescape_echo]. rewrite Hc.
      destruct (N.eqb_spec x backslash) as [->|Hb]; [|by rewrite IH].
      destruct (flat_map echo_escape s) as [|y r] eqn:E.
      * rewrite <- IH. reflexivity.
      * apply echo_escape_head in E as Hy.
        rewrite (proj2 (N.eqb_neq _ _) Hy). by rewrite IH.
Qed.

(** X19. [escapeForEcho] escapes every character of its argument on its
    own: the result is the argument with [^] set before each of
    [^ & | < >] and a backslash before each double quote, between two
    double quotes. It loses nothing: the argument can be read back from
    the text between the quotes (a caret protects the character after it,
    a backslash a double quote); so two different strings are never
    escaped to the same text. *)
Theorem escapeForEcho_round_trip (str : jsstring) :
  escapeForEcho str = [quote] ++ flat_map echo_escape str ++ [quote]
  /\ unescape_echo (flat_map echo_escape str) = str
  /\ forall other, escapeForEcho other = escapeForEcho str -> other = str.
Proof.
  split; [apply escapeForEcho_chars|]. split; [apply unescape_echo_escape|].
  intros other. rewrite !escapeForEcho_chars. intros He.
  apply app_inv_head, app_inv_tail in He.
  rewrite <- (unescape_echo_escape other), He. apply unescape_echo_escape.
Qed.

Section ApiClientEnabled.
Context `{H : Host} (env : Env).

(** Past the two checks the client returns a result. *)
Lemma api_returns_when_enabled (srcPath input : jsstring) (language : Language)
    (w : World) :
  shouldUseCloudApi env language = true ->
  exists r w', compileAndRunViaApi env srcPath input language w = (inl r, w').
Proof.
  intros Hc. apply shouldUseCloudApi_spec in Hc as [Hu [tag Ht]].
  api_checks Hu Ht. repeat break_match.
  all: leaf_absurd.
  all: eauto.
Qed.

End ApiClientEnabled.

Lemma new_events_add (e : event) (w : World) : new_events w (add_event e w) = [e].
Proof. unfold new_events, add_event. cbn [events]. apply drop_app_length. Qed.

Lemma new_events_refl (w : World) : new_events w w = [].
Proof. unfold new_events. apply drop_all. Qed.

Section QuickRunFacts.
Context `{H : Host} (env : Env) (q : QuickEnv).

Lemma check_and_run_refuses (srcPath : jsstring) (st : QuickState) :
  (exists language,
      is_Some (files (qworld st) !! path_join (path_dirname srcPath) (lit "input.txt"))
      /\ getLanguage q srcPath = inl language
      /\ shouldUseCloudApi env language = true)
  \/ (exists e,
        is_request e = false
        /\ qworld (check_and_run env q srcPath st) = add_event e (qworld st)
        /\ informations (check_and_run env q srcPath st) = informations st
        /\ terminal (check_and_run env q srcPath st) = terminal st).
Proof.
  unfold check_and_run.
  destruct (files (qworld st) !! _) as [bytes|]; [|right; eexists; by repeat split].
  destruct (getLanguage q srcPath) as [language|error];
    [|right; eexists; by repeat split].
  destruct (url_blank (cloudCompilerApiUrl env)) eqn:Hu;
    [right; eexists; by repeat split|].
  destruct (shouldUseCloudApi env language) eqn:Hc; cbn [negb];
    [|right; eexists; by repeat split].
  left. exists language. eauto.
Qed.

(** X20. [quickRun] sends a request to the compiler only when every check
    before it passed: an editor is open, its file is saved or the user
    chose [Save and Run], [input.txt] lies next to the file, the language
    of the file is known, an endpoint is configured and the language has a
    tag. Otherwise it starts nothing: no request, no information message,
    nothing on the terminal. *)
Theorem quickRun_requests_only_past_checks (st : QuickState) :
  (exists document language, quick_checks_pass env q st document language)
  \/ ((forall endpoint body,
         Fetch endpoint body
         ∉ new_events (qworld st) (qworld (quickRun env q st)))
      /\ informations (quickRun env q st) = informations st
      /\ terminal (quickRun env q st) = terminal st).
Proof.
  unfold quickRun, quick_checks_pass.
  destruct (activeTextEditor env) as [document|].
  2: { right. split; [|done]. intros endpoint body Hin.
       unfold show_error in Hin. cbn [qworld] in Hin. rewrite new_events_add in Hin.
       in_list Hin. }
  destruct (isUntitled document) eqn:Hun.
  - destruct (decide (saveChoice q = Some (lit "Save and Run"))) as [Hs|Hs].
    + rewrite (bool_decide_eq_true_2 _ Hs).
      match goal with
      | |- context [check_and_run env q ?p ?s] =>
          destruct (check_and_run_refuses p s)
            as [(language & Hin & Hl & Hc)|(e & He & -> & -> & ->)]
      end.
      * left. exists document, language.
        unfold show_warning, add_event in Hin.
        cbn [qworld with_world with_files files] in Hin.
        repeat split; eauto. rewrite Hun. exact Hin.
      * right. split; [|done]. intros endpoint body Hin.
        unfold new_events, add_event, show_warning, with_world, with_files in Hin.
        cbn [qworld events] in Hin. unfold add_event in Hin. cbn [events] in Hin.
        rewrite <- app_assoc, drop_app_length in Hin.
        in_list Hin. subst e. discriminate He.
    + rewrite (bool_decide_eq_false_2 _ Hs). right. split; [|done].
      intros endpoint body Hin. unfold show_warning in Hin. cbn [qworld] in Hin.
      rewrite new_events_add in Hin. in_list Hin.
  - destruct (check_and_run_refuses (fileName document) st)
      as [(language & Hin & Hl & Hc)|(e & He & -> & -> & ->)].
    + left. exists document, language. rewrite Hun. repeat split; eauto. discriminate.
    + right. split; [|done]. intros endpoint body Hin.
      rewrite new_events_add in Hin. in_list Hin. subst e. discriminate He.
Qed.

(** X21. Past its checks, with a temporary file that can be written, a
    quick run always comes to its end: the client returns a result, the
    labelled text ([=== ERROR ===] with [stderr], else [stdout], else a
    stand-in, when the exit code is not 0 or [stderr] is not empty;
    [=== OUTPUT ===] with [stdout] otherwise) is written next to the
    source, the terminal is told to print that file, and exactly one
    closing message is shown, the success message for exit code 0 and the
    failure message for any other. The callback of the timer then removes
    the file (the disk is as the client left it, less that path), unless
    the system refuses the unlink: the refusal is ignored and the file
    stays. *)
Theorem quickRun_shows_result (srcPath fileDir input : jsstring) (language : Language)
    (st : QuickState) :
  shouldUseCloudApi env language = true ->
  write_error env (path_join fileDir (lit ".cph_output_temp.txt")) = None ->
  let tempOutputFile := path_join fileDir (lit ".cph_output_temp.txt") in
  let st' := run_and_show env q srcPath fileDir input language st in
  exists result w',
    compileAndRunViaApi env srcPath input language (qworld st) = (inl result, w')
    /\ files (qworld st')
       = <[tempOutputFile :=
            utf8_encode
              (if shows_error result
               then lit "=== ERROR ===" ++ [newline]
                    ++ template_text q (errorMsg_of result)
               else lit "=== OUTPUT ===" ++ [newline]
                    ++ template_text q (or_value (stdout result) (VStr [])))]>
           (files w')
    /\ terminal st'
       = terminal st
         ++ (if terminal_open q then [] else [CreateTerminal (lit "CPH Quick Run")])
         ++ [TerminalShow;
             SendText ((if str_eqb os_platform (lit "win32") then lit "type " else lit "cat ")
                       ++ [quote] ++ tempOutputFile ++ [quote]);
             CleanupIn5000 tempOutputFile]
    /\ informations st'
       = informations st ++ [lit "Running code..."]
         ++ (if bool_decide (code result = Some 0)
             then [lit "Code executed successfully!"] else [])
    /\ events (qworld st')
       = events w' ++ [WriteFileSync tempOutputFile]
         ++ (if bool_decide (code result = Some 0) then []
             else [ShowErrorMessage (lit "Code execution failed. Check terminal for details.")])
    /\ files (cleanup_output env tempOutputFile (qworld st'))
       = match unlink_error env tempOutputFile with
         | None => delete tempOutputFile (files w')
         | Some _ => files (qworld st')
         end.
Proof.
  intros Hc Hw. cbv zeta.
  destruct (api_returns_when_enabled env srcPath input language (qworld st) Hc)
    as (result & w' & Hcall).
  exists result, w'. split; [exact Hcall|].
  unfold run_and_show, show_in_terminal. cbn [qworld show_information].
  rewrite Hcall, Hw.
  destruct (terminal_open q), (str_eqb os_platform (lit "win32")),
    (bool_decide (code result = Some 0));
    cbn [qworld terminal informations with_world on_terminal show_information show_error
         add_event with_files files events app];
    rewrite <- ?app_assoc; cbn [app];
    (repeat split; try reflexivity);
    unfold cleanup_output; cbn [files add_event with_files];
    rewrite lookup_insert_eq;
    (destruct (unlink_error env _); [reflexivity|]);
    cbn [files with_files add_event];
    apply delete_insert_eq.
Qed.

(** X22. When the temporary file cannot be written the result is echoed
    instead: the terminal gets the label and then [echo] with the text
    escaped by [escapeForEcho]; no file is written, no cleanup is
    scheduled, and the closing message follows as usual (the success
    message for exit code 0, the failure message for any other). If the
    text to echo is not a string (a body whose [output] or [error] was a
    number, say), the escaping itself throws: the run ends with
    [Failed to run code] and shows no closing message. *)
Theorem quickRun_echo_fallback (srcPath fileDir input : jsstring) (language : Language)
    (st : QuickState) (fileError : thrown) :
  shouldUseCloudApi env language = true ->
  write_error env (path_join fileDir (lit ".cph_output_temp.txt")) = Some fileError ->
  let st' := run_and_show env q srcPath fileDir input language st in
  exists result w',
    compileAndRunViaApi env srcPath input language (qworld st) = (inl result, w')
    /\ files (qworld st') = files w'
    /\ match (if shows_error result then errorMsg_of result
              else or_value (stdout result) (VStr [])) with
       | VStr text =>
           terminal st'
           = terminal st
             ++ (if terminal_open q then [] else [CreateTerminal (lit "CPH Quick Run")])
             ++ [TerminalShow;
                 SendText (if shows_error result then lit "echo === ERROR ==="
                           else lit "echo === OUTPUT ===");
                 SendText (lit "echo " ++ escapeForEcho text)]
           /\ informations st'
              = informations st ++ [lit "Running code..."]
                ++ (if bool_decide (code result = Some 0)
                    then [lit "Code executed successfully!"] else [])
           /\ events (qworld st')
              = events w'
                ++ (if bool_decide (code result = Some 0) then []
                    else [ShowErrorMessage
                            (lit "Code execution failed. Check terminal for details.")])
       | _ =>
           informations st' = informations st ++ [lit "Running code..."]
           /\ events (qworld st')
              = events w'
                ++ [ShowErrorMessage (lit "Failed to run code: str.replace is not a function")]
       end.
Proof.
  intros Hc Hw. cbv zeta.
  destruct (api_returns_when_enabled env srcPath input language (qworld st) Hc)
    as (result & w' & Hcall).
  exists result, w'. split; [exact Hcall|].
  unfold run_and_show, show_in_terminal. cbn [qworld show_information].
  rewrite Hcall, Hw.
  destruct (shows_error result).
  - destruct (errorMsg_of result), (terminal_open q),
      (bool_decide (code result = Some 0));
      cbn [escapeForEcho_of qworld terminal informations with_world on_terminal
           show_information show_error add_event files events message_or_text is_empty];
      rewrite <- ?app_assoc, ?app_nil_r; cbn [app]; repeat split; reflexivity.
  - destruct (or_value (stdout result) (VStr [])), (terminal_open q),
      (bool_decide (code result = Some 0));
      cbn [escapeForEcho_of qworld terminal informations with_world on_terminal
           show_information show_error add_event files events message_or_text is_empty];
      rewrite <- ?app_assoc, ?app_nil_r; cbn [app]; repeat split; reflexivity.
Qed.

End QuickRunFacts.

(** X21 at the successful run, on a system that refuses to remove the
    file. *)
Lemma quickRun_shows_result_witness :
  exists result w',
    @compileAndRunViaApi Runs.linux MoreRuns.kept_output_env Runs.src (lit "1 2")
      DemoHost.python (qworld MoreRuns.quick_start) = (inl result, w')
    /\ files (qworld (@run_and_show Runs.linux MoreRuns.kept_output_env MoreRuns.quick_env
                        Runs.src (lit "/w") (lit "1 2") DemoHost.python
                        MoreRuns.quick_start))
       = <[@path_join Runs.linux (lit "/w") (lit ".cph_output_temp.txt") :=
            @utf8_encode Runs.linux
              (if shows_error result
               then lit "=== ERROR ===" ++ [newline]
                    ++ template_text MoreRuns.quick_env (errorMsg_of result)
               else lit "=== OUTPUT ===" ++ [newline]
                    ++ template_text MoreRuns.quick_env
                         (or_value (stdout result) (VStr [])))]>
           (files w')
    /\ terminal (@run_and_show Runs.linux MoreRuns.kept_output_env MoreRuns.quick_env
                   Runs.src (lit "/w") (lit "1 2") DemoHost.python MoreRuns.quick_start)
       = terminal MoreRuns.quick_start
         ++ (if terminal_open MoreRuns.quick_env then []
             else [CreateTerminal (lit "CPH Quick Run")])
         ++ [TerminalShow;
             SendText ((if str_eqb (@os_platform Runs.linux) (lit "win32")
                        then lit "type " else lit "cat ")
                       ++ [quote]
                       ++ @path_join Runs.linux (lit "/w") (lit ".cph_output_temp.txt")
                       ++ [quote]);
             CleanupIn5000 (@path_join Runs.linux (lit "/w") (lit ".cph_output_temp.txt"))]
    /\ informations (@run_and_show Runs.linux MoreRuns.kept_output_env MoreRuns.quick_env
                       Runs.src (lit "/w") (lit "1 2") DemoHost.python
                       MoreRuns.quick_start)
       = informations MoreRuns.quick_start ++ [lit "Running code..."]
         ++ (if bool_decide (code result = Some 0)
             then [lit "Code executed successfully!"] else [])
    /\ events (qworld (@run_and_show Runs.linux MoreRuns.kept_output_env
                         MoreRuns.quick_env Runs.src (lit "/w") (lit "1 2")
                         DemoHost.python MoreRuns.quick_start))
       = events w'
         ++ [WriteFileSync (@path_join Runs.linux (lit "/w") (lit ".cph_output_temp.txt"))]
         ++ (if bool_decide (code result = Some 0) then []
             else [ShowErrorMessage
                     (lit "Code execution failed. Check terminal for details.")])
    /\ files (cleanup_output MoreRuns.kept_output_env
                (@path_join Runs.linux (lit "/w") (lit ".cph_output_temp.txt"))
                (qworld (@run_and_show Runs.linux MoreRuns.kept_output_env
                           MoreRuns.quick_env Runs.src (lit "/w") (lit "1 2")
                           DemoHost.python MoreRuns.quick_start)))
       = files (qworld (@run_and_show Runs.linux MoreRuns.kept_output_env
                          MoreRuns.quick_env Runs.src (lit "/w") (lit "1 2")
                          DemoHost.python MoreRuns.quick_start)).
Proof.
  apply (@quickRun_shows_result Runs.linux MoreRuns.kept_output_env MoreRuns.quick_env
           Runs.src (lit "/w") (lit "1 2") DemoHost.python MoreRuns.quick_start).
  - vm_compute. reflexivity.
  - reflexivity.
Defined.

(** X22 at the successful run, next to a file that cannot be written. *)
Lemma quickRun_echo_fallback_witness :
  write_error MoreRuns.no_output_env
    (@path_join Runs.linux (lit "/w") (lit ".cph_output_temp.txt")) = Some DemoHost.eacces
  /\ exists result w',
       @compileAndRunViaApi Runs.linux MoreRuns.no_output_env Runs.src (lit "1 2")
         DemoHost.python (qworld MoreRuns.quick_start) = (inl result, w')
       /\ files (qworld (@run_and_show Runs.linux MoreRuns.no_output_env
                           MoreRuns.quick_env Runs.src (lit "/w")
                           (lit "1 2") DemoHost.python MoreRuns.quick_start))
          = files w'
       /\ match (if shows_error result then errorMsg_of result
                 else or_value (stdout result) (VStr [])) with
          | VStr text =>
              terminal (@run_and_show Runs.linux MoreRuns.no_output_env
                          MoreRuns.quick_env Runs.src (lit "/w")
                          (lit "1 2") DemoHost.python MoreRuns.quick_start)
              = terminal MoreRuns.quick_start
                ++ (if terminal_open MoreRuns.quick_env then []
                    else [CreateTerminal (lit "CPH Quick Run")])
                ++ [TerminalShow;
                    SendText (if shows_error result then lit "echo === ERROR ==="
                              else lit "echo === OUTPUT ===");
                    SendText (lit "echo " ++ escapeForEcho text)]
              /\ informations (@run_and_show Runs.linux MoreRuns.no_output_env
                                 MoreRuns.quick_env Runs.src
                                 (lit "/w") (lit "1 2") DemoHost.python
                                 MoreRuns.quick_start)
                 = informations MoreRuns.quick_start ++ [lit "Running code..."]
                   ++ (if bool_decide (code result = Some 0)
                       then [lit "Code executed successfully!"] else [])
              /\ events (qworld (@run_and_show Runs.linux MoreRuns.no_output_env
                                   MoreRuns.quick_env Runs.src
                                   (lit "/w") (lit "1 2") DemoHost.python
                                   MoreRuns.quick_start))
                 = events w'
                   ++ (if bool_decide (code result = Some 0) then []
                       else [ShowErrorMessage
                               (lit "Code execution failed. Check terminal for details.")])
          | _ =>
              informations (@run_and_show Runs.linux MoreRuns.no_output_env
                              MoreRuns.quick_env Runs.src
                              (lit "/w") (lit "1 2") DemoHost.python
                              MoreRuns.quick_start)
              = informations MoreRuns.quick_start ++ [lit "Running code..."]
              /\ events (qworld (@run_and_show Runs.linux MoreRuns.no_output_env
                                   MoreRuns.quick_env Runs.src
                                   (lit "/w") (lit "1 2") DemoHost.python
                                   MoreRuns.quick_start))
                 = events w'
                   ++ [ShowErrorMessage
                         (lit "Failed to run code: str.replace is not a function")]
          end.
Proof.
  split; [vm_compute; reflexivity|].
  apply (@quickRun_echo_fallback Runs.linux MoreRuns.no_output_env
           MoreRuns.quick_env Runs.src (lit "/w") (lit "1 2")
           DemoHost.python MoreRuns.quick_start DemoHost.eacces).
  - vm_compute. reflexivity.
  - vm_compute. reflexivity.
Defined.
